(** * The face-swap API client (class [FaceSwapAPI]): a shallow embedding

    The client validates two images, negotiates an upload for each,
    submits a swap job and polls its status.  The embedding follows the
    class method by method.

    Conventions.
    - A [Buffer] is a list of bytes; [buffer[i]] is [nth_error].
    - Integer-valued JS numbers (lengths, counters, clock readings, attempt
      numbers) are [Z] or [nat]; they stay far below 2^53, where the
      arithmetic of doubles on integers is the arithmetic of integers.  The
      numbers that leave the integers (the running average and the backoff
      delays) are IEEE 754 binary64 values, [float], and every operation on
      them rounds as the JS operation does.
    - A thrown value is a [JsError] with the two properties the code reads,
      [name] and [message].
    - Everything the network, the file system and the clock decide is an
      input of the model (the [..Env] records); what the client does to the
      outside (requests, sleeps) is appended to a log. *)

From Stdlib Require Import ZArith List String Ascii Bool Lia.
From Stdlib Require Import Strings.Byte DecimalString.
From Stdlib Require Import Floats.
From Stdlib Require Uint63.
Import ListNotations.
#[local] Set Warnings "-inexact-float".
Local Open Scope string_scope.
Local Open Scope Z_scope.

(** ** Strings *)

Module Str.

(** [String.prototype.includes]: [needle] occurs in [hay]. *)
Fixpoint includes (hay needle : string) : bool :=
  match hay with
  | EmptyString => prefix needle hay
  | String _ rest => prefix needle hay || includes rest needle
  end.

(** Decimal rendering of an integer inside a template string. *)
Definition of_Z (z : Z) : string := NilZero.string_of_int (Z.to_int z).

(** [Array.prototype.join]. *)
Fixpoint join (sep : string) (l : list string) : string :=
  match l with
  | [] => ""
  | [s] => s
  | s :: rest => s ++ sep ++ join sep rest
  end.

(** A string is truthy when it is not empty.  A property the response
    does not carry is modelled as the empty string: the client only ever
    tests such properties for truthiness or compares them with a non-empty
    literal. *)
Definition truthy (s : string) : bool :=
  match s with EmptyString => false | _ => true end.

(** [a || b] on strings. *)
Definition or_else (a b : string) : string := if truthy a then a else b.

End Str.

(** ** Numbers *)

(** The double that an integer-valued JS number is, for integers of
    magnitude below 2^63 (the client's integers are lengths, counters and
    clock readings in milliseconds). *)
Definition of_Z (z : Z) : float :=
  if z <? 0 then (0 - of_uint63 (Uint63.of_Z (- z)))%float
  else of_uint63 (Uint63.of_Z z).

(** [Math.min] of two numbers: [NaN] if either is, and [-0] below [+0]. *)
Definition Math_min (a b : float) : float :=
  if is_nan a || is_nan b then nan
  else if (a <? b)%float then a
  else if (b <? a)%float then b
  else if get_sign a then a else b.

(** [Math.pow] with a natural exponent.  The language leaves the precision
    of [Math.pow] to the implementation; the value here is the exact power
    rounded once to the nearest double, ties to even.  The client calls it
    on 1.5 and 1.2 with the attempt number, 1 to 5, as exponent. *)
Definition Math_pow (x : float) (n : nat) : float :=
  match n with
  | O => 1%float
  | S _ =>
      match Prim2SF x with
      | S754_nan => nan
      | S754_infinity s =>
          if s && Nat.odd n then neg_infinity else infinity
      | S754_zero s => if s && Nat.odd n then (-0)%float else 0%float
      | S754_finite s m e =>
          SF2Prim (binary_normalize prec emax
                     ((if s then Zneg m else Zpos m) ^ Z.of_nat n)
                     (e * Z.of_nat n) false)
      end
  end.

(** ** Buffers *)

Definition Buffer := list byte.

Definition buf_length (b : Buffer) : Z := Z.of_nat (List.length b).

(** [buffer[i] === v]; out of range the read is [undefined], equal to no byte. *)
Definition byte_is (b : Buffer) (i : nat) (v : byte) : bool :=
  match nth_error b i with
  | Some x => Byte.eqb x v
  | None => false
  end.

(** ** The image validator *)

Definition MAX_RETRIES : nat := 5.
Definition POLL_INTERVAL : Z := 3000.
Definition TIMEOUT : Z := 30000.
Definition MAX_FILE_SIZE : Z := 5 * 1024 * 1024.
Definition SUPPORTED_FORMATS : list string :=
  ["image/jpeg"; "image/jpg"; "image/png"].

(** The four messages [_validateImageBuffer] can push, as tagged values;
    [render] gives the text of each. *)
Inductive Violation : Type :=
| Oversize (len : Z)
| Undersize (len : Z)
| UnsupportedFormat (contentType : string)
| CorruptData.

Definition render (v : Violation) : string :=
  match v with
  | Oversize len =>
      "Image size " ++ Str.of_Z len
        ++ " bytes exceeds maximum allowed size of "
        ++ Str.of_Z MAX_FILE_SIZE ++ " bytes (5MB)"
  | Undersize len =>
      "Image size " ++ Str.of_Z len
        ++ " bytes is too small. Minimum size is 1KB"
  | UnsupportedFormat ct =>
      "Unsupported image format: " ++ ct ++ ". Supported formats: "
        ++ Str.join ", " SUPPORTED_FORMATS
  | CorruptData => "Invalid image file format or corrupted image data"
  end.

Definition is_size_violation (v : Violation) : bool :=
  match v with
  | Oversize _ | Undersize _ => true
  | _ => false
  end.

Definition jpg1 (buffer : Buffer) : bool :=
  byte_is buffer 0 xff && byte_is buffer 1 xd8 && byte_is buffer 2 xff.

Definition png (buffer : Buffer) : bool :=
  byte_is buffer 0 x89 && byte_is buffer 1 x50
    && byte_is buffer 2 x4e && byte_is buffer 3 x47.

Definition _isValidImageBuffer (buffer : Buffer) (contentType : string) : bool :=
  if buf_length buffer <? 4 then false
  else if Str.includes contentType "jpeg" || Str.includes contentType "jpg"
       then jpg1 buffer
  else if Str.includes contentType "png" then png buffer
  else jpg1 buffer || png buffer.

Record Validation : Type := {
  isValid : bool;
  errors : list Violation
}.

Definition push_if {A : Type} (c : bool) (x : A) (l : list A) : list A :=
  if c then l ++ [x] else l.

Definition _validateImageBuffer (imageBuffer : Buffer) (contentType : string)
  : Validation :=
  let errors := [] in
  let errors :=
    push_if (MAX_FILE_SIZE <? buf_length imageBuffer)
            (Oversize (buf_length imageBuffer)) errors in
  let errors :=
    push_if (buf_length imageBuffer <? 1024)
            (Undersize (buf_length imageBuffer)) errors in
  let errors :=
    push_if (negb (existsb (String.eqb contentType) SUPPORTED_FORMATS))
            (UnsupportedFormat contentType) errors in
  let isValidImage := _isValidImageBuffer imageBuffer contentType in
  let errors := push_if (negb isValidImage) CorruptData errors in
  {| isValid := (List.length errors =? 0)%nat; errors := errors |}.

(** What the claims call the magic numbers: the buffer starts with them. *)
Definition carries_jpeg_magic (b : Buffer) : Prop :=
  exists rest, b = xff :: xd8 :: xff :: rest.

Definition carries_png_magic (b : Buffer) : Prop :=
  exists rest, b = x89 :: x50 :: x4e :: x47 :: rest.

Definition no_format_hint (contentType : string) : Prop :=
  Str.includes contentType "jpeg" = false
  /\ Str.includes contentType "jpg" = false
  /\ Str.includes contentType "png" = false.

(** ** Errors, statistics and effects *)

Record JsError : Type := {
  name : string;
  message : string
}.

(** [new Error(msg)]. *)
Definition Error (msg : string) : JsError :=
  {| name := "Error"; message := msg |}.

Record Stats : Type := {
  totalRequests : Z;
  successfulSwaps : Z;
  failedSwaps : Z;
  averageProcessingTime : float
}.

(** The object the constructor and [resetStats] install. *)
Definition resetStats : Stats :=
  {| totalRequests := 0; successfulSwaps := 0; failedSwaps := 0;
     averageProcessingTime := 0%float |}.

(** What the client does to the outside, in order.  [EvSubmit] also records
    the counters as they stand when the request is issued. *)
Inductive Event : Type :=
| EvFetchImage (url : string)
| EvUploadUrlRequest (size : Z) (contentType : string)
| EvS3Put (uploadUrl contentType contentLength : string)
| EvSubmit (imageUrl styleImageUrl : string) (seen : Stats)
| EvStatusRequest (orderId : string)
| EvSleep (ms : float).

Record World : Type := {
  stats : Stats;
  log : list Event
}.

Inductive Completion (A : Type) : Type :=
| Normal (a : A)
| Thrown (e : JsError).
Arguments Normal {A} a.
Arguments Thrown {A} e.

(** A method body: it reads and updates the world and completes normally
    or by throwing. *)
Definition M (A : Type) : Type := World -> Completion A * World.

Definition ret {A : Type} (a : A) : M A := fun w => (Normal a, w).

Definition throw {A : Type} (e : JsError) : M A := fun w => (Thrown e, w).

Definition bind {A B : Type} (m : M A) (k : A -> M B) : M B :=
  fun w =>
    match m w with
    | (Normal a, w') => k a w'
    | (Thrown e, w') => (Thrown e, w')
    end.

Notation "x <- m ;; k" := (bind m (fun x => k))
  (at level 61, m at next level, right associativity).
Notation "m ;;; k" := (bind m (fun _ => k))
  (at level 61, right associativity).

(** [try { body } catch (error) { handler }]. *)
Definition try_catch {A : Type} (body : M A) (handler : JsError -> M A) : M A :=
  fun w =>
    match body w with
    | (Normal a, w') => (Normal a, w')
    | (Thrown e, w') => handler e w'
    end.

Definition emit (ev : Event) : M unit :=
  fun w => (Normal tt, {| stats := stats w; log := log w ++ [ev] |}).

Definition get_stats : M Stats := fun w => (Normal (stats w), w).

Definition set_stats (s : Stats) : M unit :=
  fun w => (Normal tt, {| stats := s; log := log w |}).

Definition inc_totalRequests : M unit :=
  s <- get_stats ;;
  set_stats {| totalRequests := totalRequests s + 1;
               successfulSwaps := successfulSwaps s;
               failedSwaps := failedSwaps s;
               averageProcessingTime := averageProcessingTime s |}.

Definition inc_successfulSwaps : M unit :=
  s <- get_stats ;;
  set_stats {| totalRequests := totalRequests s;
               successfulSwaps := successfulSwaps s + 1;
               failedSwaps := failedSwaps s;
               averageProcessingTime := averageProcessingTime s |}.

Definition inc_failedSwaps : M unit :=
  s <- get_stats ;;
  set_stats {| totalRequests := totalRequests s;
               successfulSwaps := successfulSwaps s;
               failedSwaps := failedSwaps s + 1;
               averageProcessingTime := averageProcessingTime s |}.

Definition set_averageProcessingTime (f : Stats -> float) : M unit :=
  s <- get_stats ;;
  set_stats {| totalRequests := totalRequests s;
               successfulSwaps := successfulSwaps s;
               failedSwaps := failedSwaps s;
               averageProcessingTime := f s |}.

(** [await new Promise((resolve) => setTimeout(resolve, ms))]. *)
Definition sleep (ms : float) : M unit := emit (EvSleep ms).

(** ** The network as the client sees it *)

(** A response of [fetch]; [text], [json] and [buffer] are what awaiting
    the method of that name gives, a value or a rejection;
    [content_type] is [headers.get("content-type")], empty when the header
    is absent. *)
Record HttpResponse (J : Type) : Type := {
  ok : bool;
  status : Z;
  statusText : string;
  text : JsError + string;
  json : JsError + J;
  buffer : JsError + Buffer;
  content_type : string
}.
Arguments ok {J} _.
Arguments status {J} _.
Arguments statusText {J} _.
Arguments text {J} _.
Arguments json {J} _.
Arguments buffer {J} _.
Arguments content_type {J} _.

(** What [await fetch(...)] gives: a rejection (a network error, or an
    [AbortError] when the [TIMEOUT] timer fires first) or a response. *)
Definition FetchResult (J : Type) : Type := (JsError + HttpResponse J)%type.

Definition await {A : Type} (p : JsError + A) : M A :=
  match p with
  | inl e => throw e
  | inr a => ret a
  end.

Definition fetch {J : Type} (ev : Event) (r : FetchResult J) : M (HttpResponse J) :=
  emit ev ;;; await r.

(** The parsed JSON of a response.  [statusCode] is [None] when the value
    has no such property; [body] is [None] when [data.body] is absent, so
    that [data.body?.p] is undefined.  [stringified] is
    [JSON.stringify(data)].  The JSON value [null], on which reading
    [data.statusCode] raises a TypeError, is the [inl] alternative of
    [json]: in each method that reads the envelope, the parse and the read
    are adjacent statements of one try block.  ([testConnection] parses
    without reading and has its own type of parsed values.) *)
Record Envelope (B : Type) : Type := {
  statusCode : option Z;
  data_message : string;
  body : option B;
  stringified : string
}.
Arguments statusCode {B} _.
Arguments data_message {B} _.
Arguments body {B} _.
Arguments stringified {B} _.

Definition statusCode_is {B : Type} (data : Envelope B) (code : Z) : bool :=
  match statusCode data with
  | Some c => c =? code
  | None => false
  end.

(** [data.body?.p] for a string property [p]. *)
Definition body_prop {B : Type} (data : Envelope B) (p : B -> string) : string :=
  match body data with
  | Some b => p b
  | None => ""
  end.

(** ** Upload negotiation *)

Record UploadBody : Type := {
  uploadImage : string;
  imageUrl : string;
  size : Z
}.

(** The object [getUploadUrl] returns, without its [processingTime], which
    no caller reads. *)
Record UploadInfo : Type := {
  info_uploadUrl : string;
  info_imageUrl : string;
  info_size : option Z
}.

(** What the outside answers to one image pipeline.  [extname] is
    [path.extname(imageSource).toLowerCase()]. *)
Record ImageEnv : Type := {
  image_fetch : FetchResult unit;
  existsSync : bool;
  readFileSync : JsError + Buffer;
  extname : string;
  upload_url_fetch : FetchResult (Envelope UploadBody);
  s3_fetch : FetchResult unit
}.

Definition getUploadUrl (env : ImageEnv) (imageBuffer : Buffer)
  (contentType : string) : M UploadInfo :=
  try_catch
    (let validation := _validateImageBuffer imageBuffer contentType in
     if negb (isValid validation) then
       throw (Error ("Image validation failed: "
                       ++ Str.join ", " (map render (errors validation))))
     else
       response <- fetch (EvUploadUrlRequest (buf_length imageBuffer) contentType)
                         (upload_url_fetch env) ;;
       if negb (ok response) then
         errorText <- await (text response) ;;
         if status response =? 403 then
           throw (Error ("API Authentication Failed (403). Please verify your LightX API key has Face Swap permissions and your account has sufficient credits. Response: " ++ errorText))
         else if status response =? 429 then
           throw (Error ("Rate limit exceeded (429). Please wait before making additional requests. Response: " ++ errorText))
         else if status response =? 402 then
           throw (Error ("Payment required (402). Please check your account balance and billing status. Response: " ++ errorText))
         else
           throw (Error ("Failed to get upload URL: "
                           ++ Str.of_Z (status response) ++ " - " ++ errorText))
       else
         data <- await (json response) ;;
         if statusCode_is data 2000
            && Str.truthy (body_prop data uploadImage)
            && Str.truthy (body_prop data imageUrl)
         then
           ret {| info_uploadUrl := body_prop data uploadImage;
                  info_imageUrl := body_prop data imageUrl;
                  info_size := option_map size (body data) |}
         else
           throw (Error ("Invalid upload URL response: " ++ stringified data)))
    (fun error =>
       if (name error =? "AbortError")%string then
         throw (Error "Upload URL request timed out. Please check your internet connection and try again.")
       else throw error).

Definition uploadImageToS3 (env : ImageEnv) (uploadUrl : string)
  (imageBuffer : Buffer) (contentType : string) : M unit :=
  try_catch
    (response <- fetch (EvS3Put uploadUrl contentType
                                (Str.of_Z (buf_length imageBuffer)))
                       (s3_fetch env) ;;
     if negb (ok response) then
       throw (Error ("S3 upload failed: " ++ Str.of_Z (status response)
                       ++ " - " ++ statusText response))
     else ret tt)
    (fun error =>
       if (name error =? "AbortError")%string then
         throw (Error "S3 upload timed out. Please try again with a smaller image or check your internet connection.")
       else throw (Error ("Failed to upload to S3: " ++ message error))).

Definition processImage (env : ImageEnv) (imageSource : string) (isUrl : bool)
  : M string :=
  try_catch
    (acquired <-
       (if isUrl then
          imageResponse <- fetch (EvFetchImage imageSource) (image_fetch env) ;;
          if negb (ok imageResponse) then
            throw (Error ("Failed to fetch image from URL: "
                            ++ Str.of_Z (status imageResponse) ++ " - "
                            ++ statusText imageResponse))
          else
            imageBuffer <- await (buffer imageResponse) ;;
            ret (imageBuffer,
                 Str.or_else (content_type imageResponse) "image/jpeg")
        else
          if negb (existsSync env) then
            throw (Error ("File not found: " ++ imageSource))
          else
            imageBuffer <- await (readFileSync env) ;;
            let ext := extname env in
            if (ext =? ".png")%string then ret (imageBuffer, "image/png")
            else if ((ext =? ".jpg") || (ext =? ".jpeg"))%string then
              ret (imageBuffer, "image/jpeg")
            else
              throw (Error ("Unsupported file extension: " ++ ext
                              ++ ". Please use .jpg, .jpeg, or .png files."))) ;;
     let '(imageBuffer, contentType) := acquired in
     uploadInfo <- getUploadUrl env imageBuffer contentType ;;
     uploadImageToS3 env (info_uploadUrl uploadInfo) imageBuffer contentType ;;;
     ret (info_imageUrl uploadInfo))
    (fun error => throw error).

(** ** Job submission *)

Record OrderBody : Type := {
  orderId : string
}.

(** The try block of [requestFaceSwap]. *)
Definition requestFaceSwap_try (submit_fetch : FetchResult (Envelope OrderBody))
  (sourceImageUrl targetImageUrl : string) : M string :=
  inc_totalRequests ;;;
  seen <- get_stats ;;
  response <- fetch (EvSubmit sourceImageUrl targetImageUrl seen) submit_fetch ;;
  if negb (ok response) then
    errorText <- await (text response) ;;
    if status response =? 403 then
      throw (Error ("Face Swap API access denied (403). Please check your subscription plan and ensure Face Swap API is enabled for your account. Response: " ++ errorText))
    else if status response =? 402 then
      throw (Error ("Insufficient credits (402). Please add credits to your LightX account. Response: " ++ errorText))
    else if status response =? 400 then
      throw (Error ("Invalid request (400). Please check that both images contain clear, visible faces. Response: " ++ errorText))
    else
      throw (Error ("Face swap request failed: "
                      ++ Str.of_Z (status response) ++ " - " ++ errorText))
  else
    data <- await (json response) ;;
    if statusCode_is data 2000 && Str.truthy (body_prop data orderId) then
      ret (body_prop data orderId)
    else
      throw (Error ("Face swap failed: " ++ stringified data)).

(** Its catch block. *)
Definition requestFaceSwap_catch (error : JsError) : M string :=
  inc_failedSwaps ;;;
  if (name error =? "AbortError")%string then
    throw (Error "Face swap request timed out. Please try again.")
  else throw error.

Definition requestFaceSwap (submit_fetch : FetchResult (Envelope OrderBody))
  (sourceImageUrl targetImageUrl : string) : M string :=
  try_catch
    (requestFaceSwap_try submit_fetch sourceImageUrl targetImageUrl)
    requestFaceSwap_catch.

(** ** Status polling *)

Record StatusBody : Type := {
  status_of : string;
  output : string
}.

(** What the outside answers to one poll attempt: the result of the
    status request and the reading of [Date.now()] after it. *)
Record AttemptEnv : Type := {
  status_fetch : FetchResult (Envelope StatusBody);
  now : Z
}.

(** [startTime] and the answers to attempts 1, 2, ... *)
Record PollEnv : Type := {
  startTime : Z;
  attempt_env : nat -> AttemptEnv
}.

Definition processing_failed_message : string :=
  "Face swap failed during processing. This may be due to unclear faces or incompatible images.".

(** [Math.min(POLL_INTERVAL * Math.pow(1.5, attempt), 10000)]. *)
Definition http_backoff (attempt : nat) : float :=
  Math_min (of_Z POLL_INTERVAL * Math_pow 1.5 attempt)%float 10000.

(** [Math.min(POLL_INTERVAL * Math.pow(1.2, attempt), 8000)]. *)
Definition exception_backoff (attempt : nat) : float :=
  Math_min (of_Z POLL_INTERVAL * Math_pow 1.2 attempt)%float 8000.

(** The average after a success, from the counters already incremented:
    [(averageProcessingTime * (successfulSwaps - 1) + totalTime)
     / successfulSwaps], a product, a sum and a quotient of doubles, each
    rounded. *)
Definition updated_average (totalTime : Z) (s : Stats) : float :=
  ((averageProcessingTime s * of_Z (successfulSwaps s - 1)
    + of_Z totalTime) / of_Z (successfulSwaps s))%float.

(** The try block of one iteration.  [Some out] is [return out]; [None]
    is the end of the iteration, by [continue] or by reaching the end of
    the block. *)
Definition poll_try (order : string) (env : PollEnv) (attempt : nat)
  : M (option string) :=
  let ae := attempt_env env attempt in
  response <- fetch (EvStatusRequest order) (status_fetch ae) ;;
  if negb (ok response) then
    errorText <- await (text response) ;;
    if (attempt =? MAX_RETRIES)%nat then
      throw (Error ("Status polling failed after "
                      ++ Str.of_Z (Z.of_nat MAX_RETRIES) ++ " attempts"))
    else
      sleep (http_backoff attempt) ;;;
      ret None
  else
    data <- await (json response) ;;
    if statusCode_is data 2000 then
      let status := body_prop data status_of in
      if (status =? "active")%string && Str.truthy (body_prop data output) then
        let totalTime := now ae - startTime env in
        inc_successfulSwaps ;;;
        set_averageProcessingTime (updated_average totalTime) ;;;
        ret (Some (body_prop data output))
      else if (status =? "failed")%string then
        inc_failedSwaps ;;;
        throw (Error processing_failed_message)
      else if (status =? "init")%string then
        (if (attempt <? MAX_RETRIES)%nat then sleep (of_Z POLL_INTERVAL)
         else ret tt) ;;;
        ret None
      else
        sleep (of_Z POLL_INTERVAL) ;;;
        ret None
    else
      throw (Error ("Status check error: "
                      ++ Str.or_else (data_message data) "Unknown error")).

(** The catch block of one iteration. *)
Definition poll_catch (attempt : nat) (error : JsError) : M (option string) :=
  if (attempt =? MAX_RETRIES)%nat
     || Str.includes (message error) "Face swap failed during processing"
  then throw error
  else
    sleep (exception_backoff attempt) ;;;
    ret None.

Definition poll_iteration (order : string) (env : PollEnv) (attempt : nat)
  : M (option string) :=
  try_catch (poll_try order env attempt) (poll_catch attempt).

Definition exhausted_message : string :=
  "Face swap did not complete within " ++ Str.of_Z (Z.of_nat MAX_RETRIES)
    ++ " attempts ("
    ++ Str.of_Z (Z.of_nat MAX_RETRIES * POLL_INTERVAL / 1000) ++ " seconds)".

(** [for (let attempt = 1; attempt <= MAX_RETRIES; attempt++)] from the
    iteration numbered [attempt] on, with [remaining] iterations left
    ([remaining = MAX_RETRIES + 1 - attempt]); then the statements after
    the loop. *)
Fixpoint poll_loop (order : string) (env : PollEnv) (remaining attempt : nat)
  : M string :=
  match remaining with
  | O =>
      inc_failedSwaps ;;;
      throw (Error exhausted_message)
  | S remaining' =>
      r <- poll_iteration order env attempt ;;
      match r with
      | Some out => ret out
      | None => poll_loop order env remaining' (S attempt)
      end
  end.

Definition pollFaceSwapStatus (env : PollEnv) (order : string) : M string :=
  poll_loop order env MAX_RETRIES 1.

(** ** The whole job *)

Inductive Side : Type := SourceSide | TargetSide.

Record JobEnv : Type := {
  source_env : ImageEnv;
  target_env : ImageEnv;
  first_rejection : Side;
  submit_fetch : FetchResult (Envelope OrderBody);
  poll_env : PollEnv
}.

(** [await Promise.all([p, q])].  Both pipelines are started and run to
    their end whatever the other does (nothing cancels them); the await
    gives both values, or throws the rejection that came first, which the
    outside decides when both reject.  The requests of the two pipelines
    interleave freely in reality; the log lists those of [p] first. *)
Definition promise_all2 {A B : Type} (first : Side) (p : M A) (q : M B)
  : M (A * B) :=
  fun w =>
    let (ra, w1) := p w in
    let (rb, w2) := q w1 in
    match ra, rb with
    | Normal a, Normal b => (Normal (a, b), w2)
    | Thrown e, Normal _ => (Thrown e, w2)
    | Normal _, Thrown e => (Thrown e, w2)
    | Thrown ea, Thrown eb =>
        (Thrown (match first with SourceSide => ea | TargetSide => eb end), w2)
    end.

Definition performFaceSwap (env : JobEnv) (sourceImage targetImage : string)
  (sourceIsUrl targetIsUrl : bool) : M string :=
  try_catch
    (urls <- promise_all2 (first_rejection env)
               (processImage (source_env env) sourceImage sourceIsUrl)
               (processImage (target_env env) targetImage targetIsUrl) ;;
     let '(sourceImageUrl, targetImageUrl) := urls in
     order <- requestFaceSwap (submit_fetch env) sourceImageUrl targetImageUrl ;;
     resultUrl <- pollFaceSwapStatus (poll_env env) order ;;
     ret resultUrl)
    (fun error => throw error).

(** ** Vocabulary of the statements *)

(** The attempt gets a successful HTTP response whose JSON has
    [statusCode] 2000 and the body [b]. *)
Definition well_formed (ae : AttemptEnv) (b : StatusBody) : Prop :=
  exists r d,
    status_fetch ae = inr r /\ ok r = true /\ json r = inr d
    /\ statusCode d = Some 2000 /\ body d = Some b.

(** A status that is none of the three the poller knows. *)
Definition unrecognized (s : string) : Prop :=
  s <> "active" /\ s <> "failed" /\ s <> "init".

(** The error names of the specification, read off the messages. *)
Definition is_PollingExhaustedError (e : JsError) : Prop :=
  e = Error "Face swap did not complete within 5 attempts (15 seconds)".

Definition is_ProcessingFailedError (e : JsError) : Prop :=
  e = Error processing_failed_message.

Definition is_InvalidResponseError (e : JsError) : Prop :=
  exists raw, e = Error ("Face swap failed: " ++ raw).

(** The submission gets a successful HTTP response whose JSON has
    [statusCode] 2000 and the non-empty order identifier [oid]. *)
Definition accepted (sf : FetchResult (Envelope OrderBody)) (oid : string)
  : Prop :=
  exists r d,
    sf = inr r /\ ok r = true /\ json r = inr d
    /\ statusCode d = Some 2000 /\ body_prop d orderId = oid /\ oid <> "".

(** The counters as the submission request sees them. *)
Definition seen_by_submission (s : Stats) : Stats :=
  {| totalRequests := totalRequests s + 1;
     successfulSwaps := successfulSwaps s;
     failedSwaps := failedSwaps s;
     averageProcessingTime := averageProcessingTime s |}.

Definition is_request_event (ev : Event) : bool :=
  match ev with
  | EvSubmit _ _ _ | EvStatusRequest _ => true
  | _ => false
  end.

(** What one poll iteration may do to the counters. *)
Definition counted_success (s s' : Stats) : Prop :=
  totalRequests s' = totalRequests s
  /\ successfulSwaps s' = successfulSwaps s + 1
  /\ failedSwaps s' = failedSwaps s.

Definition counted_failure (s s' : Stats) : Prop :=
  totalRequests s' = totalRequests s
  /\ successfulSwaps s' = successfulSwaps s
  /\ failedSwaps s' = failedSwaps s + 1
  /\ averageProcessingTime s' = averageProcessingTime s.

(** A computation that leaves the counters alone, makes no request to the
    submission or status endpoint, and whose result and effects do not
    depend on the world it starts from. *)
Definition quiet {A : Type} (m : M A) : Prop :=
  exists r evs,
    forallb (fun ev => negb (is_request_event ev)) evs = true
    /\ forall w, m w = (r, {| stats := stats w; log := (log w ++ evs)%list |}).

(** ** Concrete inputs *)

(** A concrete attempt answer: HTTP 200 with
    [{statusCode: 2000, body: {status, output}}], read at time [t]. *)
Definition answer (st out : string) (t : Z) : AttemptEnv :=
  {| status_fetch :=
       inr {| ok := true; status := 200; statusText := "OK";
              text := inr "";
              json := inr {| statusCode := Some 2000; data_message := "";
                             body := Some {| status_of := st; output := out |};
                             stringified := "" |};
              buffer := inr []; content_type := "application/json" |};
     now := t |}.

Definition fresh_world : World := {| stats := resetStats; log := [] |}.

(** A concrete attempt answer: HTTP [code], not successful, with a text
    body. *)
Definition http_failure (code : Z) : AttemptEnv :=
  {| status_fetch :=
       inr {| ok := false; status := code; statusText := "Service Unavailable";
              text := inr "upstream unavailable";
              json := inl {| name := "SyntaxError";
                             message := "Unexpected token u in JSON" |};
              buffer := inr []; content_type := "text/plain" |};
     now := 100 |}.

(** A concrete attempt answer: the request itself is rejected. *)
Definition network_failure : AttemptEnv :=
  {| status_fetch :=
       inl {| name := "FetchError";
              message := "request to the status endpoint failed" |};
     now := 100 |}.

(** A concrete attempt answer: HTTP 503, not successful, whose body
    cannot be read: [response.text()] rejects. *)
Definition unreadable_failure : AttemptEnv :=
  {| status_fetch :=
       inr {| ok := false; status := 503; statusText := "Service Unavailable";
              text := inl {| name := "TypeError";
                             message := "body stream interrupted" |};
              json := inl {| name := "TypeError";
                             message := "body stream interrupted" |};
              buffer := inr []; content_type := "text/plain" |};
     now := 100 |}.

(** A concrete submission answer: HTTP 200 whose envelope has no order
    identifier. *)
Definition envelope_without_order : FetchResult (Envelope OrderBody) :=
  inr {| ok := true; status := 200; statusText := "OK";
         text := inr "";
         json := inr {| statusCode := Some 2000; data_message := "";
                        body := None;
                        stringified := "{'statusCode':2000}" |};
         buffer := inr []; content_type := "application/json" |}.

(** A concrete submission answer: HTTP 200 with an order identifier. *)
Definition envelope_with_order (oid : string)
  : FetchResult (Envelope OrderBody) :=
  inr {| ok := true; status := 200; statusText := "OK";
         text := inr "";
         json := inr {| statusCode := Some 2000; data_message := "";
                        body := Some {| orderId := oid |};
                        stringified := "" |};
         buffer := inr []; content_type := "application/json" |}.

(** An image environment whose two upload requests succeed. *)
Definition upload_ok : ImageEnv -> ImageEnv :=
  fun e =>
    {| image_fetch := image_fetch e;
       existsSync := existsSync e;
       readFileSync := readFileSync e;
       extname := extname e;
       upload_url_fetch :=
         inr {| ok := true; status := 200; statusText := "OK";
                text := inr "";
                json := inr {| statusCode := Some 2000; data_message := "";
                               body := Some {| uploadImage := "https://s3/put";
                                               imageUrl := "https://img/s";
                                               size := 2048 |};
                               stringified := "" |};
                buffer := inr []; content_type := "application/json" |};
       s3_fetch :=
         inr {| ok := true; status := 200; statusText := "OK";
                text := inr ""; json := inr tt;
                buffer := inr []; content_type := "" |} |}.

(** A local file with the given bytes and extension. *)
Definition local_file (bytes : Buffer) (ext : string) : ImageEnv :=
  upload_ok
    {| image_fetch := inl (Error "unused");
       existsSync := true;
       readFileSync := inr bytes;
       extname := ext;
       upload_url_fetch := inl (Error "unused");
       s3_fetch := inl (Error "unused") |}.

(** An image environment whose PUT is rejected with [rejection]. *)
Definition s3_rejects (rejection : JsError) : ImageEnv :=
  {| image_fetch := inl (Error "unused");
     existsSync := false;
     readFileSync := inl (Error "unused");
     extname := "";
     upload_url_fetch := inl (Error "unused");
     s3_fetch := inl rejection |}.

(** The [TIMEOUT] timer fires before the PUT is answered. *)
Definition s3_timed_out : ImageEnv :=
  s3_rejects {| name := "AbortError";
                message := "The operation was aborted." |}.

(** The storage host refuses the connection. *)
Definition s3_unreachable : ImageEnv :=
  s3_rejects {| name := "FetchError"; message := "connect ECONNREFUSED" |}.

(** A concrete job: the source is a local JPEG of 2048 bytes, the target a
    local PNG of 500 bytes; every request would succeed. *)
Definition small_target_job : JobEnv :=
  {| source_env :=
       local_file (xff :: xd8 :: xff :: xe0 :: repeat x00 2044) ".jpg";
     target_env :=
       local_file (x89 :: x50 :: x4e :: x47 :: repeat x00 496) ".png";
     first_rejection := TargetSide;
     submit_fetch := envelope_with_order "order-1";
     poll_env :=
       {| startTime := 0;
          attempt_env := fun _ => answer "active" "https://cdn/out.jpg" 10 |} |}.

(** ** Configuration and connectivity *)

Definition LIGHTX_BASE_URL : string :=
  "https://api.lightxeditor.com/external/api".

(** [LIGHTX_API_KEY] is [process.env.LIGHTX_API_KEY]: [None] when the
    variable is not set.  [key.length] is the number of characters of the
    key, taken here as one code unit each. *)
Definition isConfigured (LIGHTX_API_KEY : option string) (baseUrl : string)
  : bool :=
  let hasApiKey :=
    match LIGHTX_API_KEY with
    | Some key => Str.truthy key
    | None => false
    end in
  let hasBaseUrl := Str.truthy baseUrl in
  if negb hasApiKey then false
  else if negb hasBaseUrl then false
  else if match LIGHTX_API_KEY with
          | Some key => (String.length key <? 16)%nat
          | None => false
          end
       then false
  else true.

(** [probe] is what the outside answers to the probing request.  The
    method awaits [response.json()] and never reads the value: [J] is any
    type of parsed values, and [json] is [inr v] for every body that
    parses, the body [null] included; it is [inl] only when
    [response.json()] rejects. *)
Definition testConnection {J : Type} (probe : FetchResult J) : M bool :=
  try_catch
    (response <- fetch (EvUploadUrlRequest 1000 "image/jpeg") probe ;;
     if status response =? 200 then
       data <- await (json response) ;;
       ret true
     else if status response =? 403 then
       errorText <- await (text response) ;;
       ret false
     else ret false)
    (fun error => ret false).

(** A concrete probe answer: HTTP 200 with the body [null], which parses;
    [None] is the parsed [null]. *)
Definition probe_null : FetchResult (option (Envelope UploadBody)) :=
  inr {| ok := true; status := 200; statusText := "OK";
         text := inr "null"; json := inr None;
         buffer := inr []; content_type := "application/json" |}.

(** ** The request limiter of the router *)

(** [rateLimitMap]: the request times kept for each client address. *)
Definition RateLimitMap : Type := string -> option (list Z).

Definition map_has (m : RateLimitMap) (ip : string) : bool :=
  match m ip with Some _ => true | None => false end.

Definition map_set (m : RateLimitMap) (ip : string) (times : list Z)
  : RateLimitMap :=
  fun k => if (k =? ip)%string then Some times else m k.

(** [rateLimitMap.get(ip)], read where the key is known to be present. *)
Definition map_get (m : RateLimitMap) (ip : string) : list Z :=
  match m ip with Some times => times | None => [] end.

Inductive Verdict : Type :=
| Next              (* next() *)
| TooManyRequests.  (* res.status(429).render(...) *)

(** The middleware [rateLimit(maxRequests, windowMs)] on a request from
    [ip] served when [Date.now()] reads [now]. *)
Definition rateLimit (maxRequests windowMs : Z) (ip : string) (now : Z)
  (rateLimitMap : RateLimitMap) : Verdict * RateLimitMap :=
  let windowStart := now - windowMs in
  let rateLimitMap :=
    if negb (map_has rateLimitMap ip) then map_set rateLimitMap ip []
    else rateLimitMap in
  let requests := map_get rateLimitMap ip in
  let recentRequests := filter (fun time => windowStart <? time) requests in
  if maxRequests <=? Z.of_nat (List.length recentRequests) then
    (TooManyRequests, rateLimitMap)
  else
    let recentRequests := (recentRequests ++ [now])%list in
    (Next, map_set rateLimitMap ip recentRequests).

(** The middleware over successive requests [(ip, now)]: each request with
    its verdict. *)
Fixpoint serve (maxRequests windowMs : Z) (requests : list (string * Z))
  (rateLimitMap : RateLimitMap) : list (string * Z * Verdict) :=
  match requests with
  | [] => []
  | (ip, now) :: rest =>
      let (verdict, rateLimitMap') :=
        rateLimit maxRequests windowMs ip now rateLimitMap in
      (ip, now, verdict) :: serve maxRequests windowMs rest rateLimitMap'
  end.

(** The times at which [ip] was let through. *)
Fixpoint admitted (ip : string) (served : list (string * Z * Verdict))
  : list Z :=
  match served with
  | [] => []
  | (ip', time, Next) :: rest =>
      if (ip' =? ip)%string then time :: admitted ip rest
      else admitted ip rest
  | (_, _, TooManyRequests) :: rest => admitted ip rest
  end.

(** The clock never goes back: each time is at least [floor] and the ones
    before it. *)
Fixpoint clock_monotone (floor : Z) (requests : list (string * Z)) : Prop :=
  match requests with
  | [] => True
  | (_, now) :: rest => floor <= now /\ clock_monotone now rest
  end.

(** The limiter remembers, for each address, every admitted time that can
    still matter: the kept times and the admitted times agree above any
    bound [c] that a later window can start from. *)
Definition remembers (windowMs floor : Z) (m : RateLimitMap)
  (served : list (string * Z * Verdict)) : Prop :=
  forall ip c,
    floor - windowMs <= c ->
    filter (fun time => c <? time) (map_get m ip)
    = filter (fun time => c <? time) (admitted ip served).

(** ** Further vocabulary *)

Definition is_status_request (order : string) (ev : Event) : bool :=
  match ev with
  | EvStatusRequest o => (o =? order)%string
  | _ => false
  end.

Definition is_sleep (ev : Event) : bool :=
  match ev with
  | EvSleep _ => true
  | _ => false
  end.

(** A status request for [order], or a sleep between 3000 and 10000 ms. *)
Definition poll_event (order : string) (ev : Event) : Prop :=
  match ev with
  | EvStatusRequest o => o = order
  | EvSleep ms => (3000 <=? ms)%float = true /\ (ms <=? 10000)%float = true
  | _ => False
  end.

(** The attempt gets an HTTP response that is not successful and whose
    body text is read: [response.text()] resolves. *)
Definition http_failed (ae : AttemptEnv) : Prop :=
  exists r txt, status_fetch ae = inr r /\ ok r = false /\ text r = inr txt.

(** The status request of the attempt is rejected with [e]. *)
Definition rejected_with (ae : AttemptEnv) (e : JsError) : Prop :=
  status_fetch ae = inl e.

Definition terminal_phrase : string := "Face swap failed during processing".

(** An image behind a URL: the fetch answers 200 with [bytes] and the
    content-type header [header]; the two upload requests succeed. *)
Definition remote_image (bytes : Buffer) (header : string) : ImageEnv :=
  upload_ok
    {| image_fetch :=
         inr {| ok := true; status := 200; statusText := "OK";
                text := inr ""; json := inr tt;
                buffer := inr bytes; content_type := header |};
       existsSync := false;
       readFileSync := inl (Error "unused");
       extname := "";
       upload_url_fetch := inl (Error "unused");
       s3_fetch := inl (Error "unused") |}.

(** A JPEG of 2048 bytes. *)
Definition jpeg_2048 : Buffer := xff :: xd8 :: xff :: xe0 :: repeat x00 2044.

(** A PNG of 2048 bytes. *)
Definition png_2048 : Buffer := x89 :: x50 :: x4e :: x47 :: repeat x00 2044.

(** ** Proof automation *)

(** Unfolds the effect primitives. *)
Ltac run_monad :=
  unfold poll_iteration, poll_try, poll_catch, try_catch, fetch, sleep,
    inc_successfulSwaps, inc_failedSwaps, inc_totalRequests,
    set_averageProcessingTime, bind, emit, await, get_stats, set_stats,
    ret, throw, statusCode_is, body_prop.

(** Splits on every test the code makes. *)
Ltac split_cases :=
  repeat (cbn -[Nat.eqb Nat.ltb String.eqb Z.eqb Str.includes Str.truthy
                http_backoff exception_backoff processing_failed_message
                Str.of_Z Str.or_else append MAX_RETRIES];
          match goal with
          | |- context [match ?x with inl _ => _ | inr _ => _ end] =>
              destruct x eqn:?
          | |- context [match ?x with Some _ => _ | None => _ end] =>
              destruct x eqn:?
          | |- context [if ?x then _ else _] => destruct x eqn:?
          end).

(** * Properties *)

(** ** Strings and buffers *)

Lemma prefix_iff (needle hay : string) :
  prefix needle hay = true <-> exists post, hay = needle ++ post.
Proof.
  revert hay; induction needle as [|c needle IH]; intros hay.
  - split; [intros _; now exists hay | now destruct hay].
  - destruct hay as [|d hay]; simpl.
    + split; [discriminate | intros [post H]; discriminate].
    + destruct (Ascii.ascii_dec c d) as [->|Hcd].
      * rewrite IH. split; intros [post H]; exists post.
        -- now rewrite H.
        -- now injection H.
      * split; [discriminate | intros [post H]; injection H; congruence].
Qed.

(** [Str.includes] is the substring test. *)
Lemma includes_iff (hay needle : string) :
  Str.includes hay needle = true
  <-> exists pre post, hay = pre ++ needle ++ post.
Proof.
  induction hay as [|c hay IH]; cbn [Str.includes].
  - rewrite prefix_iff. split.
    + intros [post H]. now exists "", post.
    + intros [pre [post H]]. destruct pre; [now exists post | discriminate].
  - rewrite orb_true_iff, IH, prefix_iff. split.
    + intros [[post H] | [pre [post H]]].
      * now exists "", post.
      * exists (String c pre), post. simpl. now rewrite H.
    + intros [pre [post H]]. destruct pre as [|d pre].
      * left. now exists post.
      * right. exists pre, post. simpl in H. now injection H.
Qed.

Lemma byte_eqb_true (x y : byte) : Byte.eqb x y = true <-> x = y.
Proof.
  split.
  - apply Byte.byte_dec_bl.
  - apply Byte.byte_dec_lb.
Qed.

Lemma jpg1_iff (b : Buffer) : jpg1 b = true <-> carries_jpeg_magic b.
Proof.
  unfold jpg1, carries_jpeg_magic, byte_is. split.
  - destruct b as [|b0 [|b1 [|b2 rest]]]; simpl;
      rewrite ?andb_false_r; try discriminate.
    rewrite !andb_true_iff, !byte_eqb_true.
    intros [[-> ->] ->]. now exists rest.
  - intros [rest ->]. reflexivity.
Qed.

Lemma png_iff (b : Buffer) : png b = true <-> carries_png_magic b.
Proof.
  unfold png, carries_png_magic, byte_is. split.
  - destruct b as [|b0 [|b1 [|b2 [|b3 rest]]]]; simpl;
      rewrite ?andb_false_r; try discriminate.
    rewrite !andb_true_iff, !byte_eqb_true.
    intros [[[-> ->] ->] ->]. now exists rest.
  - intros [rest ->]. reflexivity.
Qed.

Lemma jpeg_magic_not_png (b : Buffer) : carries_jpeg_magic b -> png b = false.
Proof. intros [rest ->]. reflexivity. Qed.

(** ** The validator *)

Lemma MAX_FILE_SIZE_value : MAX_FILE_SIZE = 5242880.
Proof. reflexivity. Qed.

(** C7.  Validation of a buffer [b] under any declared content type
    reports the oversize violation exactly when [len b > 5*1024*1024], the
    undersize violation exactly when [len b < 1024], and therefore some
    size violation exactly when one of the two holds: a buffer with
    [1024 <= len b <= 5*1024*1024] gets none, whatever its content. *)
Theorem validate_size_violation_iff (b : Buffer) (contentType : string) :
  let errs := errors (_validateImageBuffer b contentType) in
  (In (Oversize (buf_length b)) errs <-> buf_length b > 5 * 1024 * 1024)
  /\ (In (Undersize (buf_length b)) errs <-> buf_length b < 1024)
  /\ (existsb is_size_violation errs = true
      <-> buf_length b > 5 * 1024 * 1024 \/ buf_length b < 1024).
Proof.
  unfold _validateImageBuffer. rewrite MAX_FILE_SIZE_value.
  change (5 * 1024 * 1024) with 5242880.
  generalize (buf_length b) as n; intros n.
  destruct (Z.ltb_spec 5242880 n) as [Hbig|Hbig];
    destruct (Z.ltb_spec n 1024) as [Hsmall|Hsmall];
    destruct (negb (existsb (String.eqb contentType) SUPPORTED_FORMATS));
    destruct (negb (_isValidImageBuffer b contentType));
    cbn [errors push_if app existsb is_size_violation In orb];
    repeat split; intros; try lia; auto;
    repeat match goal with
      | H : _ \/ _ |- _ => destruct H
      | H : Oversize _ = Undersize _ |- _ => discriminate H
      | H : Undersize _ = Oversize _ |- _ => discriminate H
      | H : _ = Oversize _ |- _ => discriminate H
      | H : _ = Undersize _ |- _ => discriminate H
      | H : False |- _ => destruct H
      | H : false = true |- _ => discriminate H
      end; try lia.
Qed.

(** C8 (amended).  A buffer that starts with the JPEG magic [FF D8 FF] and
    is declared [image/png] fails the signature check, and validation
    reports the corrupt-data violation.  Under a content type with neither
    a jpeg/jpg hint nor a png hint, the signature check accepts a buffer
    exactly when it has at least 4 bytes and starts with the JPEG magic or
    the PNG magic. *)
Theorem signature_check (b : Buffer) (contentType : string) :
  (carries_jpeg_magic b ->
   _isValidImageBuffer b "image/png" = false
   /\ In CorruptData (errors (_validateImageBuffer b "image/png")))
  /\ (no_format_hint contentType ->
      (_isValidImageBuffer b contentType = true
       <-> 4 <= buf_length b
           /\ (carries_jpeg_magic b \/ carries_png_magic b))).
Proof.
  split.
  - intros Hjpeg.
    assert (Hsig : _isValidImageBuffer b "image/png" = false).
    { unfold _isValidImageBuffer.
      destruct (buf_length b <? 4); [reflexivity|].
      cbn [Str.includes prefix]. simpl. now apply jpeg_magic_not_png. }
    split; [exact Hsig|].
    unfold _validateImageBuffer. rewrite Hsig.
    cbn [negb push_if errors]. apply in_or_app. right. now left.
  - intros (Hjpeg & Hjpg & Hpng).
    unfold _isValidImageBuffer. rewrite Hjpeg, Hjpg, Hpng. cbn [orb].
    destruct (Z.ltb_spec (buf_length b) 4) as [Hlen|Hlen].
    + split; [discriminate | intros [H _]; lia].
    + rewrite orb_true_iff, jpg1_iff, png_iff. split.
      * intros H. split; [lia | exact H].
      * intros [_ H]; exact H.
Qed.

Lemma signature_check_witness :
  _isValidImageBuffer [xff; xd8; xff; xe0] "image/png" = false
  /\ (_isValidImageBuffer [xff; xd8; xff; xe0] "text/plain" = true
      <-> 4 <= buf_length [xff; xd8; xff; xe0]
          /\ (carries_jpeg_magic [xff; xd8; xff; xe0]
              \/ carries_png_magic [xff; xd8; xff; xe0])).
Proof.
  destruct (signature_check [xff; xd8; xff; xe0] "text/plain") as [H1 H2].
  split.
  - apply H1. exists [xe0]. reflexivity.
  - apply H2. repeat split; reflexivity.
Defined.

(** C8, as first stated, fails on a buffer of exactly three bytes: it
    carries the JPEG magic, its content type has no hint, and the
    signature check rejects it because it is shorter than 4 bytes. *)
Lemma lenient_fallback_three_bytes :
  no_format_hint "application/octet-stream"
  /\ ~ (_isValidImageBuffer [xff; xd8; xff] "application/octet-stream" = true
        <-> carries_jpeg_magic [xff; xd8; xff]
            \/ carries_png_magic [xff; xd8; xff]).
Proof.
  split.
  - repeat split; reflexivity.
  - intros [_ H].
    assert (Hacc : _isValidImageBuffer [xff; xd8; xff]
                     "application/octet-stream" = true).
    { apply H. left. exists []. reflexivity. }
    discriminate Hacc.
Qed.

(** ** One poll attempt *)

Lemma terminal_phrase_in_message :
  Str.includes processing_failed_message "Face swap failed during processing"
  = true.
Proof. reflexivity. Qed.

Lemma exhausted_message_value :
  exhausted_message
  = "Face swap did not complete within 5 attempts (15 seconds)".
Proof. reflexivity. Qed.

Lemma truthy_iff (s : string) : Str.truthy s = true <-> s <> "".
Proof. destruct s; simpl; split; congruence. Qed.

(** A well-formed [active] response with an output: the iteration returns
    the output after updating the success counter and the average. *)
Lemma iteration_active (order : string) (env : PollEnv) (k : nat)
  (b : StatusBody) (w : World) :
  well_formed (attempt_env env k) b ->
  status_of b = "active" ->
  output b <> "" ->
  poll_iteration order env k w
  = (Normal (Some (output b)),
     {| stats :=
          {| totalRequests := totalRequests (stats w);
             successfulSwaps := successfulSwaps (stats w) + 1;
             failedSwaps := failedSwaps (stats w);
             averageProcessingTime :=
               ((averageProcessingTime (stats w)
                 * of_Z (successfulSwaps (stats w) + 1 - 1)
                 + of_Z (now (attempt_env env k) - startTime env))
                / of_Z (successfulSwaps (stats w) + 1))%float |};
        log := log w ++ [EvStatusRequest order] |}).
Proof.
  intros (r & d & Hf & Hok & Hj & Hc & Hb) Hs Ho.
  apply truthy_iff in Ho.
  run_monad. rewrite Hf, Hok. cbn. rewrite Hj. cbn. rewrite Hc, Hb, Hs, Ho.
  reflexivity.
Qed.

(** A well-formed [failed] response: the iteration counts one failure and
    throws the processing error, which the catch block lets through. *)
Lemma iteration_failed (order : string) (env : PollEnv) (k : nat)
  (b : StatusBody) (w : World) :
  well_formed (attempt_env env k) b ->
  status_of b = "failed" ->
  poll_iteration order env k w
  = (Thrown (Error processing_failed_message),
     {| stats :=
          {| totalRequests := totalRequests (stats w);
             successfulSwaps := successfulSwaps (stats w);
             failedSwaps := failedSwaps (stats w) + 1;
             averageProcessingTime := averageProcessingTime (stats w) |};
        log := log w ++ [EvStatusRequest order] |}).
Proof.
  intros (r & d & Hf & Hok & Hj & Hc & Hb) Hs.
  run_monad. rewrite Hf, Hok. cbn. rewrite Hj. cbn. rewrite Hc, Hb, Hs.
  cbn -[Str.includes processing_failed_message Nat.eqb].
  rewrite terminal_phrase_in_message, orb_true_r. reflexivity.
Qed.

(** A well-formed [init] response: the iteration ends, after a sleep of
    [POLL_INTERVAL] unless this is the last attempt. *)
Lemma iteration_init (order : string) (env : PollEnv) (k : nat)
  (b : StatusBody) (w : World) :
  well_formed (attempt_env env k) b ->
  status_of b = "init" ->
  poll_iteration order env k w
  = (Normal None,
     {| stats := stats w;
        log := if (k <? MAX_RETRIES)%nat
               then (log w ++ [EvStatusRequest order]) ++ [EvSleep 3000%float]
               else log w ++ [EvStatusRequest order] |}).
Proof.
  intros (r & d & Hf & Hok & Hj & Hc & Hb) Hs.
  run_monad. rewrite Hf, Hok. cbn -[Nat.ltb]. rewrite Hj. cbn -[Nat.ltb].
  rewrite Hc, Hb, Hs. cbn -[Nat.ltb].
  destruct (k <? MAX_RETRIES)%nat; reflexivity.
Qed.

(** A well-formed response with any other status, or [active] without an
    output: the iteration sleeps [POLL_INTERVAL] and ends, on every
    attempt. *)
Lemma iteration_other (order : string) (env : PollEnv) (k : nat)
  (b : StatusBody) (w : World) :
  well_formed (attempt_env env k) b ->
  unrecognized (status_of b) \/ (status_of b = "active" /\ output b = "") ->
  poll_iteration order env k w
  = (Normal None,
     {| stats := stats w;
        log := (log w ++ [EvStatusRequest order]) ++ [EvSleep 3000%float] |}).
Proof.
  intros (r & d & Hf & Hok & Hj & Hc & Hb) Hs.
  run_monad. rewrite Hf, Hok. cbn. rewrite Hj. cbn. rewrite Hc, Hb. cbn.
  destruct Hs as [(Ha & Hfl & Hi) | (Ha & Ho)].
  - apply String.eqb_neq in Ha, Hfl, Hi. rewrite Ha, Hfl, Hi. reflexivity.
  - rewrite Ha, Ho. reflexivity.
Qed.

(** ** What one iteration can do to the counters *)

(** The try block: it always issues the status request first; when it
    throws, nothing else was done to the outside, and the counters moved
    only if the error is the processing failure. *)
Lemma poll_try_cases (order : string) (env : PollEnv) (k : nat) (w : World) :
  match poll_try order env k w with
  | (Normal None, w') => stats w' = stats w
  | (Normal (Some out), w') => counted_success (stats w) (stats w')
  | (Thrown e, w') =>
      log w' = (log w ++ [EvStatusRequest order])%list
      /\ (stats w' = stats w
          \/ (e = Error processing_failed_message
              /\ counted_failure (stats w) (stats w')))
  end.
Proof.
  run_monad. split_cases;
    cbn; unfold counted_success, counted_failure; cbn; auto 10.
Qed.

Lemma poll_iteration_cases (order : string) (env : PollEnv) (k : nat)
  (w : World) :
  match poll_iteration order env k w with
  | (Normal None, w') => stats w' = stats w
  | (Normal (Some out), w') => counted_success (stats w) (stats w')
  | (Thrown e, w') =>
      stats w' = stats w \/ counted_failure (stats w) (stats w')
  end.
Proof.
  pose proof (poll_try_cases order env k w) as Htry.
  unfold poll_iteration, try_catch.
  destruct (poll_try order env k w) as [[[out|]|e] w1]; try exact Htry.
  destruct Htry as [_ Hstats]. unfold poll_catch.
  destruct ((k =? MAX_RETRIES)%nat
            || Str.includes (message e) "Face swap failed during processing")
    eqn:Hterminal.
  - unfold throw. tauto.
  - run_monad. cbn [stats].
    destruct Hstats as [Hsame | [-> _]]; [exact Hsame|].
    cbn [Error message] in Hterminal.
    rewrite terminal_phrase_in_message, orb_true_r in Hterminal.
    discriminate.
Qed.

Lemma poll_loop_cases (order : string) (env : PollEnv) (remaining : nat) :
  forall (k : nat) (w : World),
    match poll_loop order env remaining k w with
    | (Normal out, w') => counted_success (stats w) (stats w')
    | (Thrown e, w') =>
        stats w' = stats w \/ counted_failure (stats w) (stats w')
    end.
Proof.
  induction remaining as [|remaining IH]; intros k w.
  - cbn [poll_loop]. run_monad. cbn. right.
    unfold counted_failure. cbn. auto.
  - cbn [poll_loop]. unfold bind.
    pose proof (poll_iteration_cases order env k w) as Hit.
    destruct (poll_iteration order env k w) as [[[out|]|e] w1].
    + exact Hit.
    + specialize (IH (S k) w1). rewrite Hit in IH. exact IH.
    + exact Hit.
Qed.

(** ** The poll loop *)

Lemma poll_loop_returns (order : string) (env : PollEnv)
  (remaining k : nat) (out : string) (w w' : World) :
  poll_iteration order env k w = (Normal (Some out), w') ->
  poll_loop order env (S remaining) k w = (Normal out, w').
Proof.
  intros H. cbn [poll_loop]. unfold bind. now rewrite H.
Qed.

Lemma poll_loop_throws (order : string) (env : PollEnv)
  (remaining k : nat) (e : JsError) (w w' : World) :
  poll_iteration order env k w = (Thrown e, w') ->
  poll_loop order env (S remaining) k w = (Thrown e, w').
Proof.
  intros H. cbn [poll_loop]. unfold bind. now rewrite H.
Qed.

Lemma poll_loop_continues (order : string) (env : PollEnv)
  (remaining k : nat) (w w' : World) :
  poll_iteration order env k w = (Normal None, w') ->
  poll_loop order env (S remaining) k w
  = poll_loop order env remaining (S k) w'.
Proof.
  intros H. cbn [poll_loop]. unfold bind. now rewrite H.
Qed.

(** The iterations before attempt [k] end without a return or a throw. *)
Lemma poll_loop_skips (order : string) (env : PollEnv) (n : nat) :
  forall (k remaining : nat) (w : World),
    (forall j wj, (k <= j < k + n)%nat ->
                  fst (poll_iteration order env j wj) = Normal None) ->
    exists w1,
      stats w1 = stats w
      /\ poll_loop order env (n + remaining) k w
         = poll_loop order env remaining (k + n) w1.
Proof.
  induction n as [|n IH]; intros k remaining w Hskip.
  - exists w. rewrite Nat.add_0_r. split; reflexivity.
  - pose proof (Hskip k w ltac:(lia)) as Hk.
    pose proof (poll_iteration_cases order env k w) as Hcases.
    destruct (poll_iteration order env k w) as [r w0] eqn:Hit.
    cbn [fst] in Hk. subst r.
    destruct (IH (S k) remaining w0) as (w1 & Hstats & Hloop).
    { intros j wj Hj. apply Hskip. lia. }
    exists w1. split; [congruence|].
    cbn [Nat.add]. rewrite (poll_loop_continues _ _ _ _ _ _ Hit).
    rewrite Hloop. f_equal. lia.
Qed.

(** A call whose attempts before [k] all end that way reaches attempt [k]
    with the counters it started with. *)
Lemma poll_reaches (order : string) (env : PollEnv) (k : nat) (w : World) :
  (1 <= k <= MAX_RETRIES)%nat ->
  (forall j wj, (1 <= j < k)%nat ->
                fst (poll_iteration order env j wj) = Normal None) ->
  exists w1,
    stats w1 = stats w
    /\ pollFaceSwapStatus env order w
       = poll_loop order env (S (MAX_RETRIES - k)) k w1.
Proof.
  intros Hk Hskip. unfold pollFaceSwapStatus.
  destruct (poll_loop_skips order env (k - 1) 1 (S (MAX_RETRIES - k)) w)
    as (w1 & Hstats & Hloop).
  { intros j wj Hj. apply Hskip. lia. }
  exists w1. split; [exact Hstats|].
  replace (k - 1 + S (MAX_RETRIES - k))%nat with MAX_RETRIES in Hloop by lia.
  replace (1 + (k - 1))%nat with k in Hloop by lia.
  exact Hloop.
Qed.

(** C1.  When every one of the [MAX_RETRIES] status requests gets a
    well-formed response with status [init], [pollFaceSwapStatus] makes
    exactly 5 requests, sleeps [POLL_INTERVAL] = 3000 ms after each of the
    first four and not after the fifth, adds one to [failedSwaps] (and
    touches no other counter), and throws the exhaustion error, whose
    message names the 5 attempts. *)
Theorem poll_always_init (env : PollEnv) (order : string) (w : World) :
  (forall k, (1 <= k <= MAX_RETRIES)%nat ->
     exists b, well_formed (attempt_env env k) b /\ status_of b = "init") ->
  exists e,
    is_PollingExhaustedError e
    /\ pollFaceSwapStatus env order w
       = (Thrown e,
          {| stats :=
               {| totalRequests := totalRequests (stats w);
                  successfulSwaps := successfulSwaps (stats w);
                  failedSwaps := failedSwaps (stats w) + 1;
                  averageProcessingTime := averageProcessingTime (stats w) |};
             log := log w
                    ++ [EvStatusRequest order; EvSleep 3000%float;
                        EvStatusRequest order; EvSleep 3000%float;
                        EvStatusRequest order; EvSleep 3000%float;
                        EvStatusRequest order; EvSleep 3000%float;
                        EvStatusRequest order] |}).
Proof.
  intros Hinit.
  exists (Error "Face swap did not complete within 5 attempts (15 seconds)").
  split; [reflexivity|].
  unfold pollFaceSwapStatus.
  assert (Hk : forall k, In k [1; 2; 3; 4; 5]%nat -> forall w0,
             poll_iteration order env k w0
             = (Normal None,
                {| stats := stats w0;
                   log := if (k <? MAX_RETRIES)%nat
                          then (log w0 ++ [EvStatusRequest order])
                                 ++ [EvSleep 3000%float]
                          else log w0 ++ [EvStatusRequest order] |})).
  { intros k Hin w0.
    destruct (Hinit k) as (b & Hwf & Hs).
    - unfold MAX_RETRIES. simpl in Hin. lia.
    - now apply iteration_init with (b := b). }
  change MAX_RETRIES with 5%nat.
  do 5 (erewrite poll_loop_continues by (apply Hk; simpl; tauto)).
  cbn -[exhausted_message]. run_monad. cbn -[exhausted_message].
  rewrite exhausted_message_value.
  repeat rewrite <- app_assoc. reflexivity.
Qed.

Lemma answer_well_formed (st out : string) (t : Z) :
  well_formed (answer st out t) {| status_of := st; output := out |}.
Proof.
  unfold well_formed, answer. cbn.
  eexists. eexists. repeat split; reflexivity.
Qed.

Lemma poll_always_init_witness :
  exists e,
    is_PollingExhaustedError e
    /\ pollFaceSwapStatus
         {| startTime := 0; attempt_env := fun _ => answer "init" "" 100 |}
         "order-1" fresh_world
       = (Thrown e,
          {| stats :=
               {| totalRequests := 0; successfulSwaps := 0;
                  failedSwaps := 0 + 1; averageProcessingTime := 0%float |};
             log := []
                    ++ [EvStatusRequest "order-1"; EvSleep 3000%float;
                        EvStatusRequest "order-1"; EvSleep 3000%float;
                        EvStatusRequest "order-1"; EvSleep 3000%float;
                        EvStatusRequest "order-1"; EvSleep 3000%float;
                        EvStatusRequest "order-1"] |}).
Proof.
  apply (poll_always_init
           {| startTime := 0; attempt_env := fun _ => answer "init" "" 100 |}
           "order-1" fresh_world).
  intros k _. exists {| status_of := "init"; output := "" |}.
  split; [apply answer_well_formed | reflexivity].
Defined.

(** ** Arithmetic of doubles *)

(** Rounding keeps the sign: no result is the zero of the other sign. *)
Lemma binary_round_aux_sign (s : bool) (m e : Z) (l : location) :
  binary_round_aux prec emax s m e l <> S754_zero (negb s).
Proof.
  unfold binary_round_aux.
  destruct (shr_fexp prec emax m e l) as [mrs' e'].
  destruct (shr_fexp prec emax _ e' loc_Exact) as [mrs'' e''].
  destruct (shr_m mrs'') as [|p|p]; try discriminate.
  - destruct s; discriminate.
  - destruct (e'' <=? emax - prec); discriminate.
Qed.

(** No integer converts to the negative zero. *)
Lemma of_uint63_not_neg_zero (n : PrimInt63.int) :
  Prim2SF (of_uint63 n) <> S754_zero true.
Proof.
  rewrite of_uint63_spec. unfold binary_normalize.
  pose proof (Uint63.to_Z_bounded n) as Hn.
  change (Uint63Axioms.to_Z n) with (Uint63.to_Z n).
  destruct (Uint63.to_Z n) as [|p|p]; try discriminate.
  - unfold binary_round. destruct (shl_align _ _ _) as [mz ez].
    apply (binary_round_aux_sign false).
  - lia.
Qed.

Lemma of_Z_not_neg_zero (z : Z) : Prim2SF (of_Z z) <> S754_zero true.
Proof.
  unfold of_Z. destruct (z <? 0); [|apply of_uint63_not_neg_zero].
  rewrite sub_spec.
  pose proof (of_uint63_not_neg_zero (Uint63.of_Z (- z))) as Hy.
  change (Prim2SF 0) with (S754_zero false).
  destruct (Prim2SF (of_uint63 (Uint63.of_Z (- z)))) as [[|]|[|]| |[|] m e];
    cbn; try discriminate; try congruence.
Qed.

(** [0 + x] is [x], except for the negative zero. *)
Lemma add_zero_l (x : float) :
  Prim2SF x <> S754_zero true -> (0 + x)%float = x.
Proof.
  intros Hx. apply Prim2SF_inj. rewrite add_spec.
  change (Prim2SF 0) with (S754_zero false).
  destruct (Prim2SF x) as [[|]|[|]| |[|] m e]; cbn; try reflexivity.
  congruence.
Qed.

Lemma div_eucl_multiple (q b : Z) : b <> 0 -> Z.div_eucl (q * b) b = (q, 0).
Proof.
  intros Hb. pose proof (Z.div_mul q b Hb) as Hq.
  pose proof (Z.mod_mul q b Hb) as Hr.
  unfold Z.div, Z.modulo in Hq, Hr.
  destruct (Z.div_eucl (q * b) b) as [q' r']. congruence.
Qed.

(** Dividing a finite double by 1 is exact. *)
Lemma SFdiv_one (s : bool) (m : positive) (e : Z) :
  bounded prec emax m e = true ->
  SF64div (S754_finite s m e) (S754_finite false 4503599627370496 (-52))
  = S754_finite s m e.
Proof.
  unfold bounded, canonical_mantissa.
  intros Hb. apply andb_true_iff in Hb. destruct Hb as [Hc He].
  apply Z.eqb_eq in Hc. 
  assert (Hle : (e <=? emax - prec) = true) by exact He.
  apply Z.leb_le in He.
  unfold fexp, SpecFloat.emin, prec, emax in Hc, He.
  set (d := Z.pos (digits2_pos m)) in *.
  assert (Hd : 0 < d) by (unfold d; lia).
  assert (Hcase : (d = 53 /\ -1074 < e) \/ e = -1074) by lia.
  unfold SF64div, SFdiv, SFdiv_core_binary.
  change (Zdigits2 (Z.pos 4503599627370496)) with 53.
  change (Zdigits2 (Z.pos m)) with d.
  rewrite xorb_false_r.
  destruct Hcase as [[Hd53 Hlow] | Hmin].
  - replace (Z.min (fexp prec emax (d + e - (53 + -52))) (e - -52))
      with (e - 1) by (unfold fexp, SpecFloat.emin, prec, emax; lia).
    replace (e - -52 - (e - 1)) with 53 by lia.
    cbv iota beta.
    replace (Z.shiftl (Z.pos m) 53) with (Z.pos m~0 * 4503599627370496)
      by (rewrite Z.shiftl_mul_pow2 by lia;
          change (2 ^ 53) with (2 * 4503599627370496);
          rewrite (Pos2Z.inj_xO m); ring).
    rewrite div_eucl_multiple by discriminate.
    change (new_location 4503599627370496 0) with loc_Exact.
    unfold binary_round_aux, shr_fexp.
    change (Zdigits2 (Z.pos m~0)) with (Z.pos (Pos.succ (digits2_pos m))).
    rewrite Pos2Z.inj_succ. fold d.
    replace (fexp prec emax (Z.succ d + (e - 1)) - (e - 1)) with 1
      by (unfold fexp, SpecFloat.emin, prec, emax; lia).
    cbn [shr shr_record_of_loc iter_pos shr_1 shr_m loc_of_shr_record
         round_nearest_even Zdigits2 orb].
    fold d.
    replace (e - 1 + 1) with e by lia.
    replace (fexp prec emax (d + e) - e) with 0
      by (unfold fexp, SpecFloat.emin, prec, emax; lia).
    cbn [shr shr_m]. rewrite Hle. reflexivity.
  - replace (Z.min (fexp prec emax (d + e - (53 + -52))) (e - -52))
      with e by (unfold fexp, SpecFloat.emin, prec, emax; lia).
    replace (e - -52 - e) with 52 by lia.
    cbv iota beta.
    replace (Z.shiftl (Z.pos m) 52) with (Z.pos m * 4503599627370496)
      by (rewrite Z.shiftl_mul_pow2 by lia; reflexivity).
    rewrite div_eucl_multiple by discriminate.
    change (new_location 4503599627370496 0) with loc_Exact.
    unfold binary_round_aux, shr_fexp.
    cbn [shr shr_record_of_loc iter_pos shr_1 shr_m loc_of_shr_record
         round_nearest_even Zdigits2 orb].
    fold d.
    replace (fexp prec emax (d + e) - e) with 0
      by (unfold fexp, SpecFloat.emin, prec, emax; lia).
    cbn [shr shr_m shr_record_of_loc loc_of_shr_record round_nearest_even
         Zdigits2].
    fold d.
    replace (fexp prec emax (d + e) - e) with 0
      by (unfold fexp, SpecFloat.emin, prec, emax; lia).
    cbn [shr shr_m]. rewrite Hle. reflexivity.
Qed.

Lemma div_one (x : float) : (x / 1)%float = x.
Proof.
  apply Prim2SF_inj. rewrite div_spec.
  change (Prim2SF 1) with (S754_finite false 4503599627370496 (-52)).
  pose proof (Prim2SF_valid x) as Hv.
  destruct (Prim2SF x) as [[|]|[|]| |sx m e]; try reflexivity.
  apply SFdiv_one. exact Hv.
Qed.

(** The first sample: with an average of 0 over no sample, the update
    gives the elapsed time itself. *)
Lemma first_sample_average (elapsed : Z) :
  ((0 * of_Z (0 + 1 - 1) + of_Z elapsed) / of_Z (0 + 1))%float
  = of_Z elapsed.
Proof.
  change (of_Z (0 + 1 - 1)) with 0%float.
  change (of_Z (0 + 1)) with 1%float.
  change (0 * 0)%float with 0%float.
  rewrite div_one. apply add_zero_l. apply of_Z_not_neg_zero.
Qed.

(** A third sample of 4201 ms after two that average 4200 ms: the stored
    average is the rounded quotient, not the rational 12601/3. *)
Lemma third_sample_average :
  updated_average 4201
    {| totalRequests := 3; successfulSwaps := 3; failedSwaps := 0;
       averageProcessingTime := 4200 |}
  = 4200.333333333333%float.
Proof. reflexivity. Qed.

(** C2.  At any attempt [k], from any state of the counters, a
    well-formed response with status [active] and a non-empty output makes
    the loop return that output at once (no sleep, no further request),
    adds one to [successfulSwaps] and sets [averageProcessingTime] to
    [(oldAvg * (n - 1) + elapsed) / n], with [n] the incremented count and
    [elapsed] the clock reading minus [startTime], the product, the sum
    and the quotient being those of doubles, each rounded to the nearest;
    the other counters are unchanged.  From freshly reset counters the
    count becomes 1 and the average is that elapsed time.  A call of
    [pollFaceSwapStatus] whose earlier attempts all ended without result
    returns this output with these counters. *)
Theorem poll_active_returns (env : PollEnv) (order : string) (k : nat)
  (b : StatusBody) (w : World) :
  well_formed (attempt_env env k) b ->
  status_of b = "active" ->
  output b <> "" ->
  let elapsed := now (attempt_env env k) - startTime env in
  let n := successfulSwaps (stats w) + 1 in
  exists w',
    (forall remaining,
        poll_loop order env (S remaining) k w = (Normal (output b), w'))
    /\ log w' = (log w ++ [EvStatusRequest order])%list
    /\ successfulSwaps (stats w') = n
    /\ averageProcessingTime (stats w')
       = ((averageProcessingTime (stats w) * of_Z (n - 1)
           + of_Z elapsed) / of_Z n)%float
    /\ failedSwaps (stats w') = failedSwaps (stats w)
    /\ totalRequests (stats w') = totalRequests (stats w)
    /\ (stats w = resetStats ->
        successfulSwaps (stats w') = 1
        /\ averageProcessingTime (stats w') = of_Z elapsed)
    /\ ((1 <= k <= MAX_RETRIES)%nat ->
        (forall j wj, (1 <= j < k)%nat ->
                      fst (poll_iteration order env j wj) = Normal None) ->
        exists w'',
          pollFaceSwapStatus env order w = (Normal (output b), w'')
          /\ stats w'' = stats w').
Proof.
  intros Hwf Hs Ho elapsed n.
  pose proof (fun w0 => iteration_active order env k b w0 Hwf Hs Ho) as Hit.
  eexists. split.
  { intros remaining. apply poll_loop_returns. apply Hit. }
  cbn [stats log successfulSwaps averageProcessingTime failedSwaps
         totalRequests].
  split; [reflexivity|]. split; [reflexivity|]. split; [reflexivity|].
  split; [reflexivity|]. split; [reflexivity|]. split.
  - intros Hfresh. subst elapsed. rewrite Hfresh.
    cbn [resetStats successfulSwaps averageProcessingTime].
    split; [reflexivity | apply first_sample_average].
  - intros Hk Hskip.
    destruct (poll_reaches order env k w Hk Hskip) as (w1 & Hstats & Hcall).
    eexists. split.
    + rewrite Hcall. apply poll_loop_returns. apply Hit.
    + cbn [stats]. rewrite Hstats. reflexivity.
Qed.

Lemma poll_active_returns_witness :
  exists w',
    pollFaceSwapStatus
      {| startTime := 1000;
         attempt_env := fun _ => answer "active" "https://cdn/out.jpg" 5200 |}
      "order-1" fresh_world
    = (Normal "https://cdn/out.jpg", w')
    /\ successfulSwaps (stats w') = 1
    /\ averageProcessingTime (stats w') = 4200%float.
Proof.
  destruct (poll_active_returns
              {| startTime := 1000;
                 attempt_env :=
                   fun _ => answer "active" "https://cdn/out.jpg" 5200 |}
              "order-1" 1
              {| status_of := "active"; output := "https://cdn/out.jpg" |}
              fresh_world)
    as (w' & _ & _ & _ & _ & _ & _ & Hfresh & Hcall).
  - apply answer_well_formed.
  - reflexivity.
  - discriminate.
  - destruct Hcall as (w'' & Hrun & Hstats).
    + unfold MAX_RETRIES. lia.
    + intros j wj Hj. lia.
    + exists w''. rewrite Hstats.
      split; [exact Hrun | apply Hfresh; reflexivity].
Defined.

(** C3.  At any attempt [k], final or not, a well-formed response with
    status [failed] makes the loop throw the processing error at once:
    [failedSwaps] grows by exactly one, nothing else changes, the only
    effect is the status request of this attempt (no sleep, no further
    request), however many attempts remain.  A call of
    [pollFaceSwapStatus] whose earlier attempts all ended without result
    throws this error with these counters, and the status request of
    attempt [k] is the last thing it does. *)
Theorem poll_failed_terminal (env : PollEnv) (order : string) (k : nat)
  (b : StatusBody) (w : World) :
  well_formed (attempt_env env k) b ->
  status_of b = "failed" ->
  let counted :=
    {| totalRequests := totalRequests (stats w);
       successfulSwaps := successfulSwaps (stats w);
       failedSwaps := failedSwaps (stats w) + 1;
       averageProcessingTime := averageProcessingTime (stats w) |} in
  exists e,
    is_ProcessingFailedError e
    /\ (forall remaining,
           poll_loop order env (S remaining) k w
           = (Thrown e,
              {| stats := counted;
                 log := log w ++ [EvStatusRequest order] |}))
    /\ ((1 <= k <= MAX_RETRIES)%nat ->
        (forall j wj, (1 <= j < k)%nat ->
                      fst (poll_iteration order env j wj) = Normal None) ->
        exists w1,
          pollFaceSwapStatus env order w
          = (Thrown e,
             {| stats := counted;
                log := log w1 ++ [EvStatusRequest order] |})).
Proof.
  intros Hwf Hs counted. exists (Error processing_failed_message).
  pose proof (fun w0 => iteration_failed order env k b w0 Hwf Hs) as Hit.
  split; [reflexivity|]. split.
  - intros remaining. apply poll_loop_throws. apply Hit.
  - intros Hk Hskip.
    destruct (poll_reaches order env k w Hk Hskip) as (w1 & Hstats & Hcall).
    exists w1. rewrite Hcall. subst counted. rewrite <- Hstats.
    apply poll_loop_throws. apply Hit.
Qed.

Lemma poll_failed_terminal_witness :
  exists e,
    is_ProcessingFailedError e
    /\ pollFaceSwapStatus
         {| startTime := 0; attempt_env := fun _ => answer "failed" "" 100 |}
         "order-1" fresh_world
       = (Thrown e,
          {| stats :=
               {| totalRequests := 0; successfulSwaps := 0;
                  failedSwaps := 1; averageProcessingTime := 0%float |};
             log := [EvStatusRequest "order-1"] |}).
Proof.
  destruct (poll_failed_terminal
              {| startTime := 0;
                 attempt_env := fun _ => answer "failed" "" 100 |}
              "order-1" 1 {| status_of := "failed"; output := "" |}
              fresh_world)
    as (e & He & Hloop & _).
  - apply answer_well_formed.
  - reflexivity.
  - exists e. split; [exact He | exact (Hloop 4%nat)].
Defined.

(** C9, at the input where the code departs from it: five well-formed
    responses with the unrecognized status [processing].  The poller
    sleeps 3000 ms after each of the five requests, the fifth and last
    included, before it throws the exhaustion error. *)
Theorem unknown_status_sleeps_after_last_attempt :
  pollFaceSwapStatus
    {| startTime := 0; attempt_env := fun _ => answer "processing" "" 100 |}
    "order-1" fresh_world
  = (Thrown (Error "Face swap did not complete within 5 attempts (15 seconds)"),
     {| stats :=
          {| totalRequests := 0; successfulSwaps := 0; failedSwaps := 1;
             averageProcessingTime := 0%float |};
        log := [EvStatusRequest "order-1"; EvSleep 3000%float;
                EvStatusRequest "order-1"; EvSleep 3000%float;
                EvStatusRequest "order-1"; EvSleep 3000%float;
                EvStatusRequest "order-1"; EvSleep 3000%float;
                EvStatusRequest "order-1"; EvSleep 3000%float] |}).
Proof. vm_compute. reflexivity. Qed.

(** ** The two backoff schedules *)

Lemma http_backoff_values :
  http_backoff 1 = 4500%float /\ http_backoff 2 = 6750%float
  /\ http_backoff 3 = 10000%float /\ http_backoff 4 = 10000%float.
Proof. repeat split; vm_compute; reflexivity. Qed.

(** The third and fourth delays of the 1.2 curve are not the integers and
    fractions of the exact formula (5184 and 6220.8): [Math.pow] and the
    product round. *)
Lemma exception_backoff_values :
  exception_backoff 1 = 3600%float /\ exception_backoff 2 = 4320%float
  /\ exception_backoff 3 = 5183.999999999999%float
  /\ exception_backoff 4 = 6220.799999999999%float.
Proof. repeat split; vm_compute; reflexivity. Qed.

Lemma non_final_attempt (k : nat) :
  (1 <= k < MAX_RETRIES)%nat -> (k = 1 \/ k = 2 \/ k = 3 \/ k = 4)%nat.
Proof. unfold MAX_RETRIES. lia. Qed.

(** An error thrown by the try block of a non-final attempt, whose message
    does not carry the terminal phrase, is swallowed: the iteration sleeps
    along the 1.2 curve and ends. *)
Lemma iteration_swallows (order : string) (env : PollEnv) (k : nat)
  (w w1 : World) (e : JsError) :
  (k =? MAX_RETRIES)%nat = false ->
  poll_try order env k w = (Thrown e, w1) ->
  Str.includes (message e) "Face swap failed during processing" = false ->
  poll_iteration order env k w
  = (Normal None,
     {| stats := stats w;
        log := log w ++ [EvStatusRequest order;
                         EvSleep (exception_backoff k)] |}).
Proof.
  intros Hnot_last Htry Hmsg.
  pose proof (poll_try_cases order env k w) as Hcases.
  unfold poll_iteration, try_catch. rewrite Htry in *.
  destruct Hcases as [Hlog Hstats].
  unfold poll_catch. rewrite Hnot_last, Hmsg.
  run_monad. cbn -[exception_backoff]. rewrite Hlog, <- app_assoc.
  destruct Hstats as [-> | [-> _]].
  - reflexivity.
  - cbn [Error message] in Hmsg.
    rewrite terminal_phrase_in_message in Hmsg. discriminate.
Qed.

(** A non-successful response whose body cannot be read: the try block
    throws the rejection of [response.text()], after the status request. *)
Lemma poll_try_unreadable (order : string) (env : PollEnv) (k : nat)
  (w : World) (r : HttpResponse (Envelope StatusBody)) (e : JsError) :
  status_fetch (attempt_env env k) = inr r ->
  ok r = false ->
  text r = inl e ->
  poll_try order env k w
  = (Thrown e,
     {| stats := stats w; log := log w ++ [EvStatusRequest order] |}).
Proof.
  intros Hf Hok Ht. unfold poll_try. run_monad. rewrite Hf.
  cbn -[Nat.eqb MAX_RETRIES]. rewrite Hok. cbn -[Nat.eqb MAX_RETRIES].
  rewrite Ht. reflexivity.
Qed.

(** C4.  The two delays are computed in double precision.  At a non-final
    attempt [k], with [fast = min(3000 * 1.5^k, 10000)] and
    [slow = min(3000 * 1.2^k, 8000)]:
    - when the HTTP response is not successful and its body text is read,
      the iteration sleeps [fast] ms, once, and ends;
    - when the try block throws an error whose message does not carry the
      terminal phrase, the catch block swallows it and the iteration
      sleeps [slow] ms, once, and ends;
    - a non-successful response whose body text cannot be read is such an
      error: the iteration sleeps [slow] ms, not [fast].
    In each case the only other effect is the status request, and the
    counters are unchanged.  For [k] from 1 to 4, [fast] is 4500, 6750,
    10000, 10000 and [slow] is 3600, 4320, 5183.999999999999,
    6220.799999999999: different numbers at every non-final attempt. *)
Theorem poll_backoff_schedules (env : PollEnv) (order : string) (k : nat)
  (w : World) :
  (1 <= k < MAX_RETRIES)%nat ->
  let fast := Math_min (3000 * Math_pow 1.5 k)%float 10000 in
  let slow := Math_min (3000 * Math_pow 1.2 k)%float 8000 in
  (forall r txt,
      status_fetch (attempt_env env k) = inr r ->
      ok r = false ->
      text r = inr txt ->
      poll_iteration order env k w
      = (Normal None,
         {| stats := stats w;
            log := log w ++ [EvStatusRequest order; EvSleep fast] |}))
  /\ (forall e w1,
         poll_try order env k w = (Thrown e, w1) ->
         Str.includes (message e) "Face swap failed during processing" = false ->
         poll_iteration order env k w
         = (Normal None,
            {| stats := stats w;
               log := log w ++ [EvStatusRequest order; EvSleep slow] |}))
  /\ (forall r e,
         status_fetch (attempt_env env k) = inr r ->
         ok r = false ->
         text r = inl e ->
         Str.includes (message e) "Face swap failed during processing" = false ->
         poll_iteration order env k w
         = (Normal None,
            {| stats := stats w;
               log := log w ++ [EvStatusRequest order; EvSleep slow] |}))
  /\ In (k, fast, slow)
        [(1%nat, 4500%float, 3600%float);
         (2%nat, 6750%float, 4320%float);
         (3%nat, 10000%float, 5183.999999999999%float);
         (4%nat, 10000%float, 6220.799999999999%float)]
  /\ (fast =? slow)%float = false.
Proof.
  intros Hk fast slow.
  assert (Hnot_last : (k =? MAX_RETRIES)%nat = false)
    by (apply Nat.eqb_neq; lia).
  change fast with (http_backoff k). change slow with (exception_backoff k).
  split; [|split; [|split; [|split]]].
  - intros r txt Hf Hok Ht.
    run_monad. rewrite Hf. cbn -[Nat.eqb MAX_RETRIES http_backoff].
    rewrite Hok. cbn -[Nat.eqb MAX_RETRIES http_backoff].
    rewrite Ht, Hnot_last.
    cbn -[http_backoff]. rewrite <- app_assoc. reflexivity.
  - intros e w1 Htry Hmsg. eapply iteration_swallows; eassumption.
  - intros r e Hf Hok Ht Hmsg.
    eapply iteration_swallows; [exact Hnot_last | | exact Hmsg].
    apply poll_try_unreadable with (r := r); assumption.
  - destruct (non_final_attempt k Hk) as [-> | [-> | [-> | ->]]].
    + left. vm_compute. reflexivity.
    + right; left. vm_compute. reflexivity.
    + do 2 right; left. vm_compute. reflexivity.
    + do 3 right; left. vm_compute. reflexivity.
  - destruct (non_final_attempt k Hk) as [-> | [-> | [-> | ->]]];
      vm_compute; reflexivity.
Qed.

Lemma poll_backoff_schedules_witness :
  poll_iteration "order-1"
    {| startTime := 0; attempt_env := fun _ => http_failure 503 |}
    3 fresh_world
  = (Normal None,
     {| stats := resetStats;
        log := [EvStatusRequest "order-1"; EvSleep 10000%float] |})
  /\ poll_iteration "order-1"
       {| startTime := 0; attempt_env := fun _ => network_failure |}
       3 fresh_world
     = (Normal None,
        {| stats := resetStats;
           log := [EvStatusRequest "order-1";
                   EvSleep 5183.999999999999%float] |})
  /\ poll_iteration "order-1"
       {| startTime := 0; attempt_env := fun _ => unreadable_failure |}
       3 fresh_world
     = (Normal None,
        {| stats := resetStats;
           log := [EvStatusRequest "order-1";
                   EvSleep 5183.999999999999%float] |}).
Proof.
  split; [|split].
  - destruct (poll_backoff_schedules
                {| startTime := 0; attempt_env := fun _ => http_failure 503 |}
                "order-1" 3 fresh_world) as (Hhttp & _).
    + unfold MAX_RETRIES. lia.
    + eapply Hhttp; reflexivity.
  - destruct (poll_backoff_schedules
                {| startTime := 0; attempt_env := fun _ => network_failure |}
                "order-1" 3 fresh_world) as (_ & Hexn & _).
    + unfold MAX_RETRIES. lia.
    + eapply Hexn; reflexivity.
  - destruct (poll_backoff_schedules
                {| startTime := 0;
                   attempt_env := fun _ => unreadable_failure |}
                "order-1" 3 fresh_world) as (_ & _ & Hbody & _).
    + unfold MAX_RETRIES. lia.
    + eapply Hbody; reflexivity.
Defined.

(** C4, as first stated, fails at a non-final attempt whose response is
    not successful and whose body cannot be read: awaiting
    [response.text()] throws inside the try block, the catch block takes
    over, and the wait is the one of the 1.2 curve, 3600 ms at attempt 1,
    where the 1.5 curve gives 4500 ms. *)
Lemma unreadable_body_waits_on_exception_curve :
  (exists r, status_fetch unreadable_failure = inr r /\ ok r = false)
  /\ poll_iteration "order-1"
       {| startTime := 0; attempt_env := fun _ => unreadable_failure |}
       1 fresh_world
     = (Normal None,
        {| stats := resetStats;
           log := [EvStatusRequest "order-1"; EvSleep 3600%float] |})
  /\ Math_min (3000 * Math_pow 1.5 1)%float 10000 = 4500%float
  /\ ~ (forall (env : PollEnv) (order : string) (k : nat) (w : World)
               (r : HttpResponse (Envelope StatusBody)),
           (1 <= k < MAX_RETRIES)%nat ->
           status_fetch (attempt_env env k) = inr r ->
           ok r = false ->
           poll_iteration order env k w
           = (Normal None,
              {| stats := stats w;
                 log := log w
                        ++ [EvStatusRequest order;
                            EvSleep (Math_min (3000 * Math_pow 1.5 k)%float
                                       10000)] |})).
Proof.
  split; [|split; [|split]].
  - eexists. split; reflexivity.
  - vm_compute. reflexivity.
  - vm_compute. reflexivity.
  - intros H.
    specialize (H {| startTime := 0;
                     attempt_env := fun _ => unreadable_failure |}
                  "order-1" 1%nat fresh_world _
                  ltac:(unfold MAX_RETRIES; lia) eq_refl eq_refl).
    vm_compute in H. discriminate H.
Qed.

(** ** Counting outcomes *)

(** C10.  A call of [pollFaceSwapStatus], whatever the outside answers,
    never decreases [successfulSwaps] or [failedSwaps], raises each by at
    most one and never both: the increment on a [failed] status and the
    increment after the loop cannot both happen in one call.  A normal
    return is exactly the case where [successfulSwaps] grew. *)
Theorem poll_counts_at_most_once (env : PollEnv) (order : string) (w : World) :
  let s := stats w in
  let s' := stats (snd (pollFaceSwapStatus env order w)) in
  successfulSwaps s <= successfulSwaps s' <= successfulSwaps s + 1
  /\ failedSwaps s <= failedSwaps s' <= failedSwaps s + 1
  /\ (successfulSwaps s' - successfulSwaps s)
     + (failedSwaps s' - failedSwaps s) <= 1
  /\ totalRequests s' = totalRequests s
  /\ (successfulSwaps s' = successfulSwaps s + 1
      <-> exists out, fst (pollFaceSwapStatus env order w) = Normal out).
Proof.
  cbv zeta. unfold pollFaceSwapStatus.
  pose proof (poll_loop_cases order env MAX_RETRIES 1 w) as H.
  destruct (poll_loop order env MAX_RETRIES 1 w) as [[out|e] w'];
    cbn [fst snd].
  - destruct H as (Ht & Hs & Hf). repeat split; try lia.
    + intros _. now exists out.
  - assert (Hno : ~ exists out : string, @Thrown string e = Normal out)
      by (intros [out Hout]; discriminate).
    destruct H as [-> | (Ht & Hs & Hf & _)]; repeat split; try lia;
      try (intros Hex; exfalso; now apply Hno).
Qed.

(** ** Job submission *)

Lemma truthy_false_iff (s : string) : Str.truthy s = false <-> s = "".
Proof. destruct s; simpl; split; congruence. Qed.

Lemma not_accepted_rejected (e0 : JsError) (oid : string) :
  ~ accepted (inl e0) oid.
Proof. intros (r & d & H & _). discriminate H. Qed.

Lemma not_accepted_not_ok (r0 : HttpResponse (Envelope OrderBody))
  (oid : string) :
  ok r0 = false -> ~ accepted (inr r0) oid.
Proof.
  intros Hok (r & d & H & Hok' & _). injection H as <-. congruence.
Qed.

Lemma not_accepted_no_json (r0 : HttpResponse (Envelope OrderBody))
  (e1 : JsError) (oid : string) :
  json r0 = inl e1 -> ~ accepted (inr r0) oid.
Proof.
  intros Hj (r & d & H & _ & Hj' & _). injection H as <-. congruence.
Qed.

Lemma accepted_iff (r0 : HttpResponse (Envelope OrderBody))
  (d : Envelope OrderBody) (oid : string) :
  ok r0 = true -> json r0 = inr d ->
  (accepted (inr r0) oid
   <-> statusCode_is d 2000 && Str.truthy (body_prop d orderId) = true
       /\ body_prop d orderId = oid).
Proof.
  intros Hok Hj. unfold accepted, statusCode_is.
  rewrite andb_true_iff, truthy_iff. split.
  - intros (r & d' & H & _ & Hj' & Hc & Hb & Hne).
    injection H as <-. rewrite Hj in Hj'. injection Hj' as <-.
    rewrite Hc, Hb. repeat split; auto.
  - intros [[Hc Hne] Hb]. exists r0, d. repeat split; auto; try congruence.
    destruct (statusCode d) as [z|]; [|discriminate].
    apply Z.eqb_eq in Hc. now subst.
Qed.

(** The try block always leaves the world as the request saw it. *)
Lemma requestFaceSwap_try_cases (sf : FetchResult (Envelope OrderBody))
  (src tgt : string) (w : World) :
  exists r,
    requestFaceSwap_try sf src tgt w
    = (r, {| stats := seen_by_submission (stats w);
             log := log w ++ [EvSubmit src tgt (seen_by_submission (stats w))] |})
    /\ match r with
       | Normal oid => accepted sf oid
       | Thrown e =>
           (forall oid, ~ accepted sf oid)
           /\ (forall e0, sf = inl e0 -> e = e0)
           /\ (forall r0 d, sf = inr r0 -> ok r0 = true -> json r0 = inr d ->
               e = Error ("Face swap failed: " ++ stringified d))
       end.
Proof.
  unfold requestFaceSwap_try. run_monad. cbn.
  fold (seen_by_submission (stats w)).
  destruct sf as [e0 | r0]; cbn.
  - eexists. split; [reflexivity|]. split; [|split].
    + intros oid. apply not_accepted_rejected.
    + intros e1 H. now injection H.
    + intros r0 d H. discriminate H.
  - destruct (ok r0) eqn:Hok; cbn.
    + destruct (json r0) as [e1 | d] eqn:Hj; cbn.
      * eexists. split; [reflexivity|]. split; [|split].
        -- intros oid. now apply not_accepted_no_json with (e1 := e1).
        -- intros e0 H. discriminate H.
        -- intros r1 d H _ Hj'. injection H as <-. congruence.
      * pose proof (fun oid => accepted_iff r0 d oid Hok Hj) as Hacc.
        unfold statusCode_is, body_prop in Hacc.
        destruct (match statusCode d with
                  | Some c => c =? 2000
                  | None => false
                  end && Str.truthy match body d with
                                    | Some b => orderId b
                                    | None => ""
                                    end) eqn:Hgood.
        -- eexists. split; [reflexivity|]. apply Hacc. auto.
        -- eexists. split; [reflexivity|]. split; [|split].
           ++ intros oid H. apply Hacc in H. destruct H. discriminate.
           ++ intros e0 H. discriminate H.
           ++ intros r1 d1 H _ Hj'. injection H as <-.
              rewrite Hj in Hj'. now injection Hj' as <-.
    + assert (Hno : forall oid, ~ accepted (inr r0) oid)
        by (intros oid; now apply not_accepted_not_ok).
      assert (Hvac : forall (r1 : HttpResponse (Envelope OrderBody))
                            (d : Envelope OrderBody) (e : JsError),
                 @inr JsError _ r0 = inr r1 -> ok r1 = true ->
                 json r1 = inr d ->
                 e = Error ("Face swap failed: " ++ stringified d))
        by (intros r1 d e H Hok1 _; injection H as <-; congruence).
      destruct (text r0) as [e1 | txt]; cbn;
        [| destruct (status r0 =? 403); [| destruct (status r0 =? 402);
           [| destruct (status r0 =? 400)]]];
        (eexists; split; [reflexivity|]; split; [exact Hno | split];
         [intros e0 H; discriminate H | intros r1 d; apply Hvac]).
Qed.

Lemma requestFaceSwap_catch_run (e : JsError) (w : World) :
  requestFaceSwap_catch e w
  = (Thrown (if (name e =? "AbortError")%string
             then Error "Face swap request timed out. Please try again."
             else e),
     {| stats :=
          {| totalRequests := totalRequests (stats w);
             successfulSwaps := successfulSwaps (stats w);
             failedSwaps := failedSwaps (stats w) + 1;
             averageProcessingTime := averageProcessingTime (stats w) |};
        log := log w |}).
Proof.
  unfold requestFaceSwap_catch. run_monad. cbn.
  destruct (name e =? "AbortError")%string; reflexivity.
Qed.

(** C5.  Whatever the outside answers, [requestFaceSwap] issues exactly one
    submission request, and the request already sees [totalRequests]
    incremented by one.  The call returns an order identifier exactly when
    the answer is a successful response whose envelope has [statusCode]
    2000 and a non-empty identifier, and then [failedSwaps] is unchanged.
    In every other case (rejected or timed-out request, non-successful
    response, unreadable body, envelope without identifier) [failedSwaps]
    grows by one and an error is thrown to the caller: the rejection
    itself, or the time-out error when the rejection is an [AbortError],
    and the invalid-response error when the envelope lacks the
    identifier. *)
Theorem requestFaceSwap_accounting (sf : FetchResult (Envelope OrderBody))
  (src tgt : string) (w : World) :
  let seen := {| totalRequests := totalRequests (stats w) + 1;
                 successfulSwaps := successfulSwaps (stats w);
                 failedSwaps := failedSwaps (stats w);
                 averageProcessingTime := averageProcessingTime (stats w) |} in
  exists r w',
    requestFaceSwap sf src tgt w = (r, w')
    /\ log w' = (log w ++ [EvSubmit src tgt seen])%list
    /\ totalRequests (stats w') = totalRequests (stats w) + 1
    /\ successfulSwaps (stats w') = successfulSwaps (stats w)
    /\ averageProcessingTime (stats w') = averageProcessingTime (stats w)
    /\ match r with
       | Normal oid =>
           accepted sf oid /\ failedSwaps (stats w') = failedSwaps (stats w)
       | Thrown e =>
           (forall oid, ~ accepted sf oid)
           /\ failedSwaps (stats w') = failedSwaps (stats w) + 1
           /\ (forall e0, sf = inl e0 ->
               e = if (name e0 =? "AbortError")%string
                   then Error "Face swap request timed out. Please try again."
                   else e0)
           /\ (forall r0 d, sf = inr r0 -> ok r0 = true -> json r0 = inr d ->
               is_InvalidResponseError e)
       end.
Proof.
  cbv zeta. fold (seen_by_submission (stats w)).
  destruct (requestFaceSwap_try_cases sf src tgt w) as (r & Htry & Hr).
  unfold requestFaceSwap, try_catch. rewrite Htry.
  destruct r as [oid | e].
  - do 2 eexists. split; [reflexivity|]. cbn. auto 10.
  - rewrite requestFaceSwap_catch_run.
    do 2 eexists. split; [reflexivity|]. cbn.
    destruct Hr as (Hno & Hrej & Hinv).
    repeat split; auto.
    + intros e0 H. now rewrite (Hrej e0 H).
    + intros r0 d H Hok Hj. rewrite (Hinv r0 d H Hok Hj). cbn.
      exists (stringified d). reflexivity.
Qed.

Lemma requestFaceSwap_accounting_witness :
  exists e w',
    requestFaceSwap envelope_without_order "https://img/s" "https://img/t"
      fresh_world = (Thrown e, w')
    /\ is_InvalidResponseError e
    /\ failedSwaps (stats w') = 1
    /\ totalRequests (stats w') = 1.
Proof.
  destruct (requestFaceSwap_accounting envelope_without_order
              "https://img/s" "https://img/t" fresh_world)
    as (r & w' & Hrun & _ & Htotal & _ & _ & Hr).
  destruct r as [oid | e].
  - exfalso. destruct Hr as [(r0 & d & H & _ & Hj & _ & Hb & Hne) _].
    injection H as <-. injection Hj as <-. apply Hne. symmetry. exact Hb.
  - exists e, w'. destruct Hr as (_ & Hfailed & _ & Hinv).
    repeat split.
    + exact Hrun.
    + eapply Hinv; reflexivity.
    + exact Hfailed.
    + exact Htotal.
Defined.

(** ** The image pipelines are quiet *)

Lemma world_eta (w : World) :
  w = {| stats := stats w; log := log w ++ [] |}.
Proof. destruct w as [s l]. cbn. now rewrite app_nil_r. Qed.

Lemma quiet_ret {A : Type} (a : A) : quiet (ret a).
Proof.
  exists (Normal a), []. split; [reflexivity|].
  intros w. unfold ret. now rewrite <- world_eta.
Qed.

Lemma quiet_throw {A : Type} (e : JsError) : quiet (@throw A e).
Proof.
  exists (Thrown e), []. split; [reflexivity|].
  intros w. unfold throw. now rewrite <- world_eta.
Qed.

Lemma quiet_await {A : Type} (p : JsError + A) : quiet (await p).
Proof. destruct p; [apply quiet_throw | apply quiet_ret]. Qed.

Lemma quiet_emit (ev : Event) : is_request_event ev = false -> quiet (emit ev).
Proof.
  intros Hev. exists (Normal tt), [ev]. split.
  - cbn. now rewrite Hev.
  - reflexivity.
Qed.

Lemma quiet_bind {A B : Type} (m : M A) (k : A -> M B) :
  quiet m -> (forall a, quiet (k a)) -> quiet (bind m k).
Proof.
  intros (r & evs & Hevs & Hm) Hk. destruct r as [a | e].
  - destruct (Hk a) as (r2 & evs2 & Hevs2 & Hka).
    exists r2, (evs ++ evs2)%list. split.
    + rewrite forallb_app, Hevs, Hevs2. reflexivity.
    + intros w. unfold bind. rewrite Hm, Hka. cbn. now rewrite app_assoc.
  - exists (Thrown e), evs. split; [exact Hevs|].
    intros w. unfold bind. now rewrite Hm.
Qed.

Lemma quiet_try_catch {A : Type} (body : M A) (handler : JsError -> M A) :
  quiet body -> (forall e, quiet (handler e)) -> quiet (try_catch body handler).
Proof.
  intros (r & evs & Hevs & Hm) Hh. destruct r as [a | e].
  - exists (Normal a), evs. split; [exact Hevs|].
    intros w. unfold try_catch. now rewrite Hm.
  - destruct (Hh e) as (r2 & evs2 & Hevs2 & Hhe).
    exists r2, (evs ++ evs2)%list. split.
    + rewrite forallb_app, Hevs, Hevs2. reflexivity.
    + intros w. unfold try_catch. rewrite Hm, Hhe. cbn. now rewrite app_assoc.
Qed.

Lemma quiet_fetch {J : Type} (ev : Event) (r : FetchResult J) :
  is_request_event ev = false -> quiet (fetch ev r).
Proof.
  intros Hev. unfold fetch. apply quiet_bind.
  - now apply quiet_emit.
  - intros _. apply quiet_await.
Qed.

Lemma quiet_if {A : Type} (c : bool) (m1 m2 : M A) :
  quiet m1 -> quiet m2 -> quiet (if c then m1 else m2).
Proof. now destruct c. Qed.

Create HintDb quiet.
#[local] Hint Resolve quiet_ret quiet_throw quiet_await quiet_fetch
  quiet_try_catch quiet_bind quiet_if : quiet.

Lemma getUploadUrl_quiet (env : ImageEnv) (imageBuffer : Buffer)
  (contentType : string) :
  quiet (getUploadUrl env imageBuffer contentType).
Proof. unfold getUploadUrl. cbv zeta. auto 20 with quiet. Qed.

Lemma uploadImageToS3_quiet (env : ImageEnv) (uploadUrl : string)
  (imageBuffer : Buffer) (contentType : string) :
  quiet (uploadImageToS3 env uploadUrl imageBuffer contentType).
Proof. unfold uploadImageToS3. auto 20 with quiet. Qed.

#[local] Hint Resolve getUploadUrl_quiet uploadImageToS3_quiet : quiet.

Lemma processImage_quiet (env : ImageEnv) (imageSource : string)
  (isUrl : bool) :
  quiet (processImage env imageSource isUrl).
Proof.
  unfold processImage. cbv zeta.
  apply quiet_try_catch; [|auto with quiet].
  apply quiet_bind.
  - auto 20 with quiet.
  - intros [imageBuffer contentType]. auto 20 with quiet.
Qed.

(** ** The whole job *)

(** C6.  When the source pipeline or the target pipeline ([processImage])
    fails, [performFaceSwap] throws one of the pipeline failures (the only
    one, or the first when both fail), the four statistics are what they
    were, and nothing was sent to the submission or the status endpoint:
    [requestFaceSwap], which would have incremented [totalRequests], did
    not run. *)
Theorem performFaceSwap_fails_fast (env : JobEnv)
  (sourceImage targetImage : string) (sourceIsUrl targetIsUrl : bool)
  (w : World) :
  let source := processImage (source_env env) sourceImage sourceIsUrl in
  let target := processImage (target_env env) targetImage targetIsUrl in
  (exists e, fst (source w) = Thrown e) \/ (exists e, fst (target w) = Thrown e) ->
  exists e w',
    performFaceSwap env sourceImage targetImage sourceIsUrl targetIsUrl w
    = (Thrown e, w')
    /\ (fst (source w) = Thrown e \/ fst (target w) = Thrown e)
    /\ stats w' = stats w
    /\ exists evs,
        log w' = (log w ++ evs)%list
        /\ forallb (fun ev => negb (is_request_event ev)) evs = true.
Proof.
  cbv zeta.
  destruct (processImage_quiet (source_env env) sourceImage sourceIsUrl)
    as (rs & evs_s & Hquiet_s & Hs).
  destruct (processImage_quiet (target_env env) targetImage targetIsUrl)
    as (rt & evs_t & Hquiet_t & Ht).
  intros Hfail.
  unfold performFaceSwap, try_catch, bind, promise_all2.
  rewrite !Hs, !Ht. rewrite Hs, Ht in Hfail. cbn [fst stats log] in *.
  assert (Hlog : exists evs,
             ((log w ++ evs_s) ++ evs_t)%list = (log w ++ evs)%list
             /\ forallb (fun ev => negb (is_request_event ev)) evs = true).
  { exists (evs_s ++ evs_t)%list. split.
    - now rewrite app_assoc.
    - rewrite forallb_app, Hquiet_s, Hquiet_t. reflexivity. }
  destruct rs as [us | es], rt as [ut | et].
  - destruct Hfail as [[e He] | [e He]]; discriminate He.
  - exists et. eexists. split; [reflexivity|]. cbn. auto.
  - exists es. eexists. split; [reflexivity|]. cbn. auto.
  - destruct (first_rejection env).
    + exists es. eexists. split; [reflexivity|]. cbn. auto.
    + exists et. eexists. split; [reflexivity|]. cbn. auto.
Qed.

Lemma performFaceSwap_fails_fast_witness :
  exists e w',
    performFaceSwap small_target_job "source.jpg" "target.png" false false
      fresh_world = (Thrown e, w')
    /\ message e
       = "Image validation failed: Image size 500 bytes is too small. Minimum size is 1KB"
    /\ stats w' = resetStats
    /\ existsb is_request_event (log w') = false.
Proof.
  destruct (performFaceSwap_fails_fast small_target_job
              "source.jpg" "target.png" false false fresh_world)
    as (e & w' & Hrun & _ & Hstats & _).
  - right. eexists. vm_compute. reflexivity.
  - exists e, w'. split; [exact Hrun|].
    vm_compute in Hrun. injection Hrun as <- <-.
    repeat split; reflexivity.
Defined.

(** * Further properties *)

(** ** The validator, as a whole *)

Lemma supported_format_iff (contentType : string) :
  existsb (String.eqb contentType) SUPPORTED_FORMATS = true
  <-> contentType = "image/jpeg" \/ contentType = "image/jpg"
      \/ contentType = "image/png".
Proof.
  unfold SUPPORTED_FORMATS. cbn [existsb].
  rewrite !orb_true_iff, !String.eqb_eq. intuition discriminate.
Qed.

Lemma validation_passes_unfold (b : Buffer) (contentType : string) :
  isValid (_validateImageBuffer b contentType) = true
  <-> (MAX_FILE_SIZE <? buf_length b) = false
      /\ (buf_length b <? 1024) = false
      /\ existsb (String.eqb contentType) SUPPORTED_FORMATS = true
      /\ _isValidImageBuffer b contentType = true.
Proof.
  unfold _validateImageBuffer.
  destruct (MAX_FILE_SIZE <? buf_length b);
    destruct (buf_length b <? 1024);
    destruct (existsb (String.eqb contentType) SUPPORTED_FORMATS);
    destruct (_isValidImageBuffer b contentType);
    cbn; intuition discriminate.
Qed.

(** Validation passes exactly for a buffer of 1024 to 5242880 bytes whose
    declared type is one of the three supported ones and whose first bytes
    are the magic number of that type: JPEG for [image/jpeg] and
    [image/jpg], PNG for [image/png]. *)
Theorem validation_passes_iff (b : Buffer) (contentType : string) :
  isValid (_validateImageBuffer b contentType) = true
  <-> 1024 <= buf_length b <= 5242880
      /\ (((contentType = "image/jpeg" \/ contentType = "image/jpg")
           /\ carries_jpeg_magic b)
          \/ (contentType = "image/png" /\ carries_png_magic b)).
Proof.
  rewrite validation_passes_unfold, supported_format_iff, MAX_FILE_SIZE_value.
  rewrite !Z.ltb_ge. unfold _isValidImageBuffer. split.
  - intros (Hmax & Hmin & Hct & Hsig).
    split; [lia|].
    destruct (Z.ltb_spec (buf_length b) 4) as [Hlt|_]; [discriminate|].
    destruct Hct as [-> | [-> | ->]]; cbn in Hsig.
    + left. split; [auto | now apply jpg1_iff].
    + left. split; [auto | now apply jpg1_iff].
    + right. split; [auto | now apply png_iff].
  - intros ([Hmin Hmax] & Hsig).
    destruct (Z.ltb_spec (buf_length b) 4) as [Hlt|_]; [lia|].
    repeat split; try lia.
    + destruct Hsig as [[[-> | ->] _] | [-> _]]; auto.
    + destruct Hsig as [[[-> | ->] Hm] | [-> Hm]]; cbn;
        first [now apply jpg1_iff | now apply png_iff].
Qed.

(** Under a content type without a jpeg, jpg or png hint, where the
    signature check accepts either magic number, validation still fails:
    such a type is not a supported format, and that violation is
    reported. *)
Theorem lenient_fallback_never_validates (b : Buffer) (contentType : string) :
  no_format_hint contentType ->
  In (UnsupportedFormat contentType)
     (errors (_validateImageBuffer b contentType))
  /\ isValid (_validateImageBuffer b contentType) = false.
Proof.
  intros (Hjpeg & Hjpg & Hpng).
  assert (Hunsupported :
            existsb (String.eqb contentType) SUPPORTED_FORMATS = false).
  { destruct (existsb (String.eqb contentType) SUPPORTED_FORMATS) eqn:Hex;
      [|reflexivity].
    apply supported_format_iff in Hex.
    destruct Hex as [-> | [-> | ->]]; discriminate. }
  split.
  - unfold _validateImageBuffer. rewrite Hunsupported.
    cbn [negb push_if errors].
    destruct (negb (_isValidImageBuffer b contentType)); cbn [push_if];
      repeat (apply in_or_app; first [right; now left | left]).
  - destruct (isValid (_validateImageBuffer b contentType)) eqn:Hv;
      [|reflexivity].
    apply validation_passes_unfold in Hv. destruct Hv as (_ & _ & Hs & _).
    congruence.
Qed.

Lemma lenient_fallback_never_validates_witness :
  In (UnsupportedFormat "image/webp")
     (errors (_validateImageBuffer
                (xff :: xd8 :: xff :: xe0 :: repeat x00 2044) "image/webp"))
  /\ isValid (_validateImageBuffer
                (xff :: xd8 :: xff :: xe0 :: repeat x00 2044) "image/webp")
     = false.
Proof.
  apply lenient_fallback_never_validates.
  repeat split; reflexivity.
Defined.

(** A buffer of fewer than 4 bytes, the empty one included, is reported
    both as undersize and as corrupt, under every content type. *)
Theorem short_buffer_violations (b : Buffer) (contentType : string) :
  buf_length b < 4 ->
  In (Undersize (buf_length b)) (errors (_validateImageBuffer b contentType))
  /\ In CorruptData (errors (_validateImageBuffer b contentType)).
Proof.
  intros Hlen. unfold _validateImageBuffer, _isValidImageBuffer.
  rewrite MAX_FILE_SIZE_value.
  destruct (Z.ltb_spec 5242880 (buf_length b)); [lia|].
  destruct (Z.ltb_spec (buf_length b) 1024); [|lia].
  destruct (Z.ltb_spec (buf_length b) 4); [|lia].
  destruct (negb (existsb (String.eqb contentType) SUPPORTED_FORMATS));
    cbn; auto 6.
Qed.

Lemma short_buffer_violations_witness :
  In (Undersize 0) (errors (_validateImageBuffer [] "image/png"))
  /\ In CorruptData (errors (_validateImageBuffer [] "image/png")).
Proof.
  apply (short_buffer_violations [] "image/png"). reflexivity.
Defined.

(** Validation reports at most three violations, never oversize and
    undersize together, and always in the order size, format, data. *)
Theorem validation_reports_in_order (b : Buffer) (contentType : string) :
  exists size_part format_part data_part,
    errors (_validateImageBuffer b contentType)
    = (size_part ++ format_part ++ data_part)%list
    /\ (size_part = [] \/ size_part = [Oversize (buf_length b)]
        \/ size_part = [Undersize (buf_length b)])
    /\ (format_part = [] \/ format_part = [UnsupportedFormat contentType])
    /\ (data_part = [] \/ data_part = [CorruptData]).
Proof.
  exists (if MAX_FILE_SIZE <? buf_length b then [Oversize (buf_length b)]
          else if buf_length b <? 1024 then [Undersize (buf_length b)]
          else []),
         (if negb (existsb (String.eqb contentType) SUPPORTED_FORMATS)
          then [UnsupportedFormat contentType] else []),
         (if negb (_isValidImageBuffer b contentType)
          then [CorruptData] else []).
  unfold _validateImageBuffer. rewrite MAX_FILE_SIZE_value.
  destruct (Z.ltb_spec 5242880 (buf_length b));
    destruct (Z.ltb_spec (buf_length b) 1024); try lia;
    destruct (negb (existsb (String.eqb contentType) SUPPORTED_FORMATS));
    destruct (negb (_isValidImageBuffer b contentType));
    cbn [push_if errors app]; auto 10.
Qed.

(** ** Upload negotiation *)

Lemma getUploadUrl_invalid_run (env : ImageEnv) (b : Buffer)
  (contentType : string) (w : World) :
  isValid (_validateImageBuffer b contentType) = false ->
  getUploadUrl env b contentType w
  = (Thrown (Error ("Image validation failed: "
                      ++ Str.join ", "
                           (map render
                                (errors (_validateImageBuffer b contentType))))),
     w).
Proof.
  intros Hinvalid. unfold getUploadUrl, try_catch. cbv zeta.
  rewrite Hinvalid. reflexivity.
Qed.

(** An invalid image never reaches the network: [getUploadUrl] throws the
    validation error, whose message lists every violation, and the world
    is untouched. *)
Theorem getUploadUrl_invalid_no_request (env : ImageEnv) (b : Buffer)
  (contentType : string) (w : World) :
  isValid (_validateImageBuffer b contentType) = false ->
  getUploadUrl env b contentType w
  = (Thrown (Error ("Image validation failed: "
                      ++ Str.join ", "
                           (map render
                                (errors (_validateImageBuffer b contentType))))),
     w).
Proof. apply getUploadUrl_invalid_run. Qed.

Lemma getUploadUrl_invalid_no_request_witness :
  getUploadUrl (local_file [] ".png") [] "image/gif" fresh_world
  = (Thrown (Error "Image validation failed: Image size 0 bytes is too small. Minimum size is 1KB, Unsupported image format: image/gif. Supported formats: image/jpeg, image/jpg, image/png, Invalid image file format or corrupted image data"),
     fresh_world).
Proof.
  apply (getUploadUrl_invalid_no_request (local_file [] ".png") []
           "image/gif" fresh_world).
  reflexivity.
Defined.

Lemma rethrow_or_timeout_throws {A : Type} (timeout_message : string)
  (e : JsError) (w : World) :
  exists e',
    (if (name e =? "AbortError")%string
     then @throw A (Error timeout_message) else throw e) w
    = (Thrown e', w).
Proof.
  destruct (name e =? "AbortError")%string; eexists; reflexivity.
Qed.

Lemma getUploadUrl_granted_run (env : ImageEnv) (b : Buffer)
  (contentType : string) (w : World)
  (r : HttpResponse (Envelope UploadBody)) (d : Envelope UploadBody) :
  isValid (_validateImageBuffer b contentType) = true ->
  upload_url_fetch env = inr r -> ok r = true -> json r = inr d ->
  statusCode d = Some 2000 ->
  body_prop d uploadImage <> "" -> body_prop d imageUrl <> "" ->
  getUploadUrl env b contentType w
  = (Normal {| info_uploadUrl := body_prop d uploadImage;
               info_imageUrl := body_prop d imageUrl;
               info_size := option_map size (body d) |},
     {| stats := stats w;
        log := log w ++ [EvUploadUrlRequest (buf_length b) contentType] |}).
Proof.
  intros Hvalid Hf Hok Hj Hc Hu Hi.
  unfold getUploadUrl, try_catch. cbv zeta.
  rewrite Hvalid. cbn [negb]. unfold fetch, bind, emit, await.
  rewrite Hf. cbn [ret]. rewrite Hok. cbn [negb]. rewrite Hj. cbn [ret].
  apply truthy_iff in Hu, Hi. unfold statusCode_is.
  rewrite Hc, Hu, Hi. reflexivity.
Qed.

(** [getUploadUrl] returns exactly when the image is valid and the answer
    is a successful response whose envelope has [statusCode] 2000, an
    upload URL and an image URL; it then returns those of the envelope,
    having made the one request, which declares the length of the buffer
    and the content type. *)
Theorem getUploadUrl_returns_iff (env : ImageEnv) (b : Buffer)
  (contentType : string) (w : World) (info : UploadInfo) (w' : World) :
  getUploadUrl env b contentType w = (Normal info, w')
  <-> isValid (_validateImageBuffer b contentType) = true
      /\ (exists r d,
             upload_url_fetch env = inr r /\ ok r = true /\ json r = inr d
             /\ statusCode d = Some 2000
             /\ body_prop d uploadImage <> ""
             /\ body_prop d imageUrl <> ""
             /\ info = {| info_uploadUrl := body_prop d uploadImage;
                          info_imageUrl := body_prop d imageUrl;
                          info_size := option_map size (body d) |})
      /\ w' = {| stats := stats w;
                 log := log w
                        ++ [EvUploadUrlRequest (buf_length b) contentType] |}.
Proof.
  unfold getUploadUrl, try_catch. cbv zeta. split.
  - destruct (isValid (_validateImageBuffer b contentType)); cbn [negb].
    2:{ unfold throw. cbn. discriminate. }
    unfold fetch, bind, emit, await.
    destruct (upload_url_fetch env) as [e | r]; cbn [throw ret].
    { destruct (rethrow_or_timeout_throws (A := UploadInfo)
                  "Upload URL request timed out. Please check your internet connection and try again."
                  e {| stats := stats w;
                       log := log w ++ [EvUploadUrlRequest (buf_length b)
                                          contentType] |}) as (e' & ->).
      discriminate. }
    destruct (ok r) eqn:Hok; cbn [negb].
    + destruct (json r) as [e | d] eqn:Hj; cbn [throw ret].
      { match goal with
        | |- context [if ?c then _ else _] => destruct c
        end; discriminate. }
      destruct (statusCode_is d 2000 && Str.truthy (body_prop d uploadImage)
                && Str.truthy (body_prop d imageUrl)) eqn:Hgood.
      * intros H. injection H as <- <-.
        apply andb_true_iff in Hgood. destruct Hgood as [Hgood Hi].
        apply andb_true_iff in Hgood. destruct Hgood as [Hc Hu].
        apply truthy_iff in Hi, Hu. unfold statusCode_is in Hc.
        destruct (statusCode d) as [z|] eqn:Hz; [|discriminate].
        apply Z.eqb_eq in Hc. subst z.
        split; [reflexivity|]. split; [|reflexivity].
        exists r, d. repeat split; auto.
      * cbn. discriminate.
    + destruct (text r) as [e | txt]; cbn [throw ret].
      { match goal with
        | |- context [if ?c then _ else _] => destruct c
        end; discriminate. }
      destruct (status r =? 403); [cbn; discriminate|].
      destruct (status r =? 429); [cbn; discriminate|].
      destruct (status r =? 402); cbn; discriminate.
  - intros (Hvalid & (r & d & Hf & Hok & Hj & Hc & Hu & Hi & ->) & ->).
    rewrite Hvalid. cbn [negb]. unfold fetch, bind, emit, await.
    rewrite Hf. cbn [ret]. rewrite Hok. cbn [negb]. rewrite Hj. cbn [ret].
    apply truthy_iff in Hu, Hi. unfold statusCode_is.
    rewrite Hc, Hu, Hi. reflexivity.
Qed.

Lemma uploadImageToS3_ok_run (env : ImageEnv) (uploadUrl : string)
  (b : Buffer) (contentType : string) (w : World) (resp : HttpResponse unit) :
  s3_fetch env = inr resp -> ok resp = true ->
  uploadImageToS3 env uploadUrl b contentType w
  = (Normal tt,
     {| stats := stats w;
        log := log w ++ [EvS3Put uploadUrl contentType
                           (Str.of_Z (buf_length b))] |}).
Proof.
  intros Hf Hok. unfold uploadImageToS3, try_catch, fetch, bind, emit, await.
  rewrite Hf. cbn [ret]. rewrite Hok. reflexivity.
Qed.

(** [uploadImageToS3] always makes exactly one PUT, whose Content-Length is
    the decimal length of the buffer.  It returns exactly when the
    response is successful.  It never lets the original error through,
    what it throws is a fresh [Error]:
    - when the PUT is rejected with an error named [AbortError], the
      time-out text;
    - when the PUT is rejected with any other error, the message of that
      error behind the prefix "Failed to upload to S3: ";
    - when the response is not successful, the text
      "S3 upload failed: <status> - <statusText>" behind that prefix. *)
Theorem uploadImageToS3_outcomes (env : ImageEnv) (uploadUrl : string)
  (b : Buffer) (contentType : string) (w : World) :
  exists r,
    uploadImageToS3 env uploadUrl b contentType w
    = (r, {| stats := stats w;
             log := log w ++ [EvS3Put uploadUrl contentType
                                (Str.of_Z (buf_length b))] |})
    /\ (r = Normal tt <-> exists resp, s3_fetch env = inr resp /\ ok resp = true)
    /\ (forall e, s3_fetch env = inl e -> name e = "AbortError" ->
        r = Thrown (Error "S3 upload timed out. Please try again with a smaller image or check your internet connection."))
    /\ (forall e, s3_fetch env = inl e -> name e <> "AbortError" ->
        r = Thrown (Error ("Failed to upload to S3: " ++ message e)))
    /\ (forall resp, s3_fetch env = inr resp -> ok resp = false ->
        r = Thrown (Error ("Failed to upload to S3: S3 upload failed: "
                             ++ Str.of_Z (status resp) ++ " - "
                             ++ statusText resp))).
Proof.
  unfold uploadImageToS3, try_catch, fetch, bind, emit, await.
  destruct (s3_fetch env) as [e | resp]; cbn [throw ret].
  - destruct (String.eqb_spec (name e) "AbortError") as [Hname | Hname];
      (eexists; split; [reflexivity|]; split; [|split; [|split]]);
      try (split; [discriminate | intros [resp [H _]]; discriminate H]);
      try (intros resp H; discriminate H);
      intros e' H Hn; injection H as <-;
      solve [reflexivity | contradiction].
  - destruct (ok resp) eqn:Hok; cbn [negb throw ret].
    + eexists. split; [reflexivity|]. split; [|split; [|split]].
      * split; [eauto | reflexivity].
      * intros e H. discriminate H.
      * intros e H. discriminate H.
      * intros resp' H Hok'. injection H as <-. congruence.
    + eexists. split; [reflexivity|]. split; [|split; [|split]].
      * split; [discriminate|].
        intros [resp' [H Hok']]. injection H as <-. congruence.
      * intros e H. discriminate H.
      * intros e H. discriminate H.
      * intros resp' H _. injection H as <-. reflexivity.
Qed.

Lemma uploadImageToS3_outcomes_witness :
  uploadImageToS3 (local_file jpeg_2048 ".jpg") "https://s3/put"
    jpeg_2048 "image/jpeg" fresh_world
  = (Normal tt,
     {| stats := resetStats;
        log := [EvS3Put "https://s3/put" "image/jpeg" "2048"] |})
  /\ uploadImageToS3 s3_timed_out "https://s3/put"
       jpeg_2048 "image/jpeg" fresh_world
     = (Thrown (Error "S3 upload timed out. Please try again with a smaller image or check your internet connection."),
        {| stats := resetStats;
           log := [EvS3Put "https://s3/put" "image/jpeg" "2048"] |})
  /\ uploadImageToS3 s3_unreachable "https://s3/put"
       jpeg_2048 "image/jpeg" fresh_world
     = (Thrown (Error "Failed to upload to S3: connect ECONNREFUSED"),
        {| stats := resetStats;
           log := [EvS3Put "https://s3/put" "image/jpeg" "2048"] |}).
Proof.
  split; [|split].
  - destruct (uploadImageToS3_outcomes (local_file jpeg_2048 ".jpg")
                "https://s3/put" jpeg_2048 "image/jpeg" fresh_world)
      as (r & Hrun & Hiff & _).
    rewrite Hrun. f_equal. apply Hiff. eexists. split; reflexivity.
  - destruct (uploadImageToS3_outcomes s3_timed_out
                "https://s3/put" jpeg_2048 "image/jpeg" fresh_world)
      as (r & Hrun & _ & Habort & _).
    rewrite Hrun. f_equal. eapply Habort; reflexivity.
  - destruct (uploadImageToS3_outcomes s3_unreachable
                "https://s3/put" jpeg_2048 "image/jpeg" fresh_world)
      as (r & Hrun & _ & _ & Hother & _).
    rewrite Hrun. f_equal.
    apply (Hother {| name := "FetchError";
                     message := "connect ECONNREFUSED" |} eq_refl).
    discriminate.
Defined.

(** ** Image acquisition *)

(** A local source that does not exist, or whose extension is none of
    [.png], [.jpg], [.jpeg], is refused before any request is made. *)
Theorem processImage_local_refusals (env : ImageEnv) (imageSource : string)
  (w : World) :
  (existsSync env = false ->
   processImage env imageSource false w
   = (Thrown (Error ("File not found: " ++ imageSource)), w))
  /\ (forall b,
         existsSync env = true ->
         readFileSync env = inr b ->
         extname env <> ".png" -> extname env <> ".jpg" ->
         extname env <> ".jpeg" ->
         processImage env imageSource false w
         = (Thrown (Error ("Unsupported file extension: " ++ extname env
                             ++ ". Please use .jpg, .jpeg, or .png files.")),
            w)).
Proof.
  unfold processImage, try_catch, bind, await. split.
  - intros Hex. rewrite Hex. reflexivity.
  - intros b Hex Hread Hpng Hjpg Hjpeg. rewrite Hex, Hread. cbn.
    apply String.eqb_neq in Hpng, Hjpg, Hjpeg.
    rewrite Hpng, Hjpg, Hjpeg. reflexivity.
Qed.

Lemma processImage_local_refusals_witness :
  processImage (remote_image jpeg_2048 "image/jpeg") "missing.jpg" false
    fresh_world
  = (Thrown (Error "File not found: missing.jpg"), fresh_world)
  /\ processImage (local_file jpeg_2048 ".gif") "photo.gif" false fresh_world
     = (Thrown (Error "Unsupported file extension: .gif. Please use .jpg, .jpeg, or .png files."),
        fresh_world).
Proof.
  split.
  - apply (processImage_local_refusals (remote_image jpeg_2048 "image/jpeg")
             "missing.jpg" fresh_world).
    reflexivity.
  - apply (processImage_local_refusals (local_file jpeg_2048 ".gif")
             "photo.gif" fresh_world) with (b := jpeg_2048);
      solve [reflexivity | discriminate].
Defined.

Lemma try_catch_rethrow {A : Type} (m : M A) (w : World) :
  try_catch m (fun error => throw error) w = m w.
Proof.
  unfold try_catch, throw. destruct (m w) as [[a | e] w']; reflexivity.
Qed.

(** What [processImage] does once it holds the bytes and the type. *)
Lemma processImage_local_run (env : ImageEnv) (imageSource : string)
  (b : Buffer) (contentType : string) (w : World) :
  existsSync env = true ->
  readFileSync env = inr b ->
  (extname env = ".png" /\ contentType = "image/png"
   \/ (extname env = ".jpg" \/ extname env = ".jpeg")
      /\ contentType = "image/jpeg") ->
  processImage env imageSource false w
  = (uploadInfo <- getUploadUrl env b contentType ;;
     uploadImageToS3 env (info_uploadUrl uploadInfo) b contentType ;;;
     ret (info_imageUrl uploadInfo)) w.
Proof.
  intros Hex Hread Hext. unfold processImage. rewrite try_catch_rethrow.
  unfold bind at 1. unfold bind at 1. unfold await.
  rewrite Hex, Hread. cbn [negb ret].
  destruct Hext as [[-> ->] | [[-> | ->] ->]]; reflexivity.
Qed.

Lemma processImage_remote_run (env : ImageEnv) (imageSource : string)
  (ir : HttpResponse unit) (b : Buffer) (w : World) :
  image_fetch env = inr ir ->
  ok ir = true ->
  buffer ir = inr b ->
  processImage env imageSource true w
  = (uploadInfo <- getUploadUrl env b
                     (Str.or_else (content_type ir) "image/jpeg") ;;
     uploadImageToS3 env (info_uploadUrl uploadInfo) b
       (Str.or_else (content_type ir) "image/jpeg") ;;;
     ret (info_imageUrl uploadInfo))
      {| stats := stats w; log := log w ++ [EvFetchImage imageSource] |}.
Proof.
  intros Hf Hok Hbuf. unfold processImage. rewrite try_catch_rethrow.
  unfold bind at 1. unfold bind at 1. unfold fetch, bind at 1, emit, await.
  rewrite Hf. cbn [ret]. unfold bind at 1. cbn [ret].
  rewrite Hok. cbn [negb]. unfold bind at 1. rewrite Hbuf. reflexivity.
Qed.

Lemma only_corrupt_data (b : Buffer) (contentType : string) :
  1024 <= buf_length b <= 5242880 ->
  existsb (String.eqb contentType) SUPPORTED_FORMATS = true ->
  _isValidImageBuffer b contentType = false ->
  _validateImageBuffer b contentType
  = {| isValid := false; errors := [CorruptData] |}.
Proof.
  intros Hlen Hct Hsig. unfold _validateImageBuffer.
  rewrite MAX_FILE_SIZE_value, Hct, Hsig.
  destruct (Z.ltb_spec 5242880 (buf_length b)); [lia|].
  destruct (Z.ltb_spec (buf_length b) 1024); [lia|].
  reflexivity.
Qed.

(** For a local file the declared type comes from the extension alone.  A
    file of acceptable size named [.jpg] or [.jpeg] that does not start
    with the JPEG magic, or named [.png] without the PNG magic, is refused
    as corrupt before any request is made, whatever it really contains. *)
Theorem processImage_extension_decides (env : ImageEnv)
  (imageSource : string) (b : Buffer) (w : World) :
  existsSync env = true ->
  readFileSync env = inr b ->
  1024 <= buf_length b <= 5242880 ->
  ((extname env = ".jpg" \/ extname env = ".jpeg") /\ ~ carries_jpeg_magic b)
  \/ (extname env = ".png" /\ ~ carries_png_magic b) ->
  processImage env imageSource false w
  = (Thrown (Error "Image validation failed: Invalid image file format or corrupted image data"),
     w).
Proof.
  intros Hex Hread Hlen Hcase.
  assert (Hlen4 : (buf_length b <? 4) = false) by (apply Z.ltb_ge; lia).
  destruct Hcase as [[Hext Hmagic] | [Hext Hmagic]].
  - rewrite (processImage_local_run env imageSource b "image/jpeg" w)
      by auto.
    unfold bind at 1.
    rewrite getUploadUrl_invalid_run;
      rewrite only_corrupt_data; try reflexivity; try assumption.
    all: unfold _isValidImageBuffer; rewrite Hlen4; cbn;
      destruct (jpg1 b) eqn:Hj; [apply jpg1_iff in Hj; tauto | reflexivity].
  - rewrite (processImage_local_run env imageSource b "image/png" w)
      by auto.
    unfold bind at 1.
    rewrite getUploadUrl_invalid_run;
      rewrite only_corrupt_data; try reflexivity; try assumption.
    all: unfold _isValidImageBuffer; rewrite Hlen4; cbn;
      destruct (png b) eqn:Hp; [apply png_iff in Hp; tauto | reflexivity].
Qed.

Lemma processImage_extension_decides_witness :
  processImage (local_file png_2048 ".jpg") "portrait.jpg" false fresh_world
  = (Thrown (Error "Image validation failed: Invalid image file format or corrupted image data"),
     fresh_world).
Proof.
  apply (processImage_extension_decides (local_file png_2048 ".jpg")
           "portrait.jpg" png_2048 fresh_world).
  - reflexivity.
  - reflexivity.
  - vm_compute. split; discriminate.
  - left. split; [left; reflexivity|].
    intros [rest H]. discriminate H.
Defined.

(** The pipeline for an image behind a URL, when every step succeeds: the
    declared type is the content-type header of the image response, or
    [image/jpeg] when the header is absent; the three requests are made in
    the order fetch, upload-URL request, PUT to the upload URL the service
    gave; the result is the image URL the service gave. *)
Theorem processImage_remote_success (env : ImageEnv) (imageSource : string)
  (ir : HttpResponse unit) (b : Buffer)
  (r : HttpResponse (Envelope UploadBody)) (d : Envelope UploadBody)
  (sr : HttpResponse unit) (w : World) :
  let contentType := Str.or_else (content_type ir) "image/jpeg" in
  image_fetch env = inr ir -> ok ir = true -> buffer ir = inr b ->
  isValid (_validateImageBuffer b contentType) = true ->
  upload_url_fetch env = inr r -> ok r = true -> json r = inr d ->
  statusCode d = Some 2000 ->
  body_prop d uploadImage <> "" -> body_prop d imageUrl <> "" ->
  s3_fetch env = inr sr -> ok sr = true ->
  processImage env imageSource true w
  = (Normal (body_prop d imageUrl),
     {| stats := stats w;
        log := log w
               ++ [EvFetchImage imageSource;
                   EvUploadUrlRequest (buf_length b) contentType;
                   EvS3Put (body_prop d uploadImage) contentType
                     (Str.of_Z (buf_length b))] |}).
Proof.
  intros contentType Hf Hok Hbuf Hvalid Hu Huok Hj Hc Hup Him Hs Hsok.
  rewrite (processImage_remote_run env imageSource ir b w Hf Hok Hbuf).
  fold contentType. unfold bind at 1.
  rewrite (getUploadUrl_granted_run env b contentType _ r d)
    by assumption.
  cbn [info_uploadUrl info_imageUrl stats log]. unfold bind at 1.
  rewrite (uploadImageToS3_ok_run env _ b contentType _ sr Hs Hsok).
  cbn. unfold ret. rewrite <- !app_assoc. reflexivity.
Qed.

Lemma processImage_remote_success_witness :
  processImage (remote_image jpeg_2048 "") "https://cdn/source" true
    fresh_world
  = (Normal "https://img/s",
     {| stats := resetStats;
        log := [EvFetchImage "https://cdn/source";
                EvUploadUrlRequest 2048 "image/jpeg";
                EvS3Put "https://s3/put" "image/jpeg" "2048"] |}).
Proof.
  eapply (processImage_remote_success (remote_image jpeg_2048 "")
            "https://cdn/source" _ jpeg_2048 _ _ _ fresh_world
            eq_refl eq_refl eq_refl eq_refl eq_refl eq_refl eq_refl eq_refl);
    solve [reflexivity | discriminate].
Defined.

(** ** Polling: failures of the transport *)

Lemma iteration_http_failed (order : string) (env : PollEnv) (k : nat)
  (w : World) :
  http_failed (attempt_env env k) ->
  poll_iteration order env k w
  = if (k =? MAX_RETRIES)%nat
    then (Thrown (Error "Status polling failed after 5 attempts"),
          {| stats := stats w; log := log w ++ [EvStatusRequest order] |})
    else (Normal None,
          {| stats := stats w;
             log := (log w ++ [EvStatusRequest order])
                    ++ [EvSleep (http_backoff k)] |}).
Proof.
  intros (r & txt & Hf & Hok & Ht).
  run_monad. rewrite Hf. cbn -[Nat.eqb MAX_RETRIES http_backoff].
  rewrite Hok. cbn -[Nat.eqb MAX_RETRIES http_backoff]. rewrite Ht.
  cbn -[Nat.eqb MAX_RETRIES http_backoff].
  destruct (k =? MAX_RETRIES)%nat; reflexivity.
Qed.

Lemma iteration_rejected (order : string) (env : PollEnv) (k : nat)
  (e : JsError) (w : World) :
  rejected_with (attempt_env env k) e ->
  poll_iteration order env k w
  = if (k =? MAX_RETRIES)%nat || Str.includes (message e) terminal_phrase
    then (Thrown e,
          {| stats := stats w; log := log w ++ [EvStatusRequest order] |})
    else (Normal None,
          {| stats := stats w;
             log := (log w ++ [EvStatusRequest order])
                    ++ [EvSleep (exception_backoff k)] |}).
Proof.
  unfold rejected_with, terminal_phrase. intros Hf.
  run_monad. rewrite Hf.
  cbn -[Nat.eqb MAX_RETRIES exception_backoff Str.includes].
  destruct ((k =? MAX_RETRIES)%nat
            || Str.includes (message e) "Face swap failed during processing");
    reflexivity.
Qed.

(** When all five status requests get a non-successful HTTP response
    whose body text is read, the call sleeps along the 1.5 curve after
    each of the first four (4500, 6750, 10000 and 10000 ms), then throws
    "Status polling failed after 5 attempts"; unlike the other ways to run
    out of attempts, this one leaves [failedSwaps] as it was. *)
Theorem poll_http_failures_uncounted (env : PollEnv) (order : string)
  (w : World) :
  (forall k, (1 <= k <= MAX_RETRIES)%nat -> http_failed (attempt_env env k)) ->
  pollFaceSwapStatus env order w
  = (Thrown (Error "Status polling failed after 5 attempts"),
     {| stats := stats w;
        log := log w
               ++ [EvStatusRequest order; EvSleep 4500%float;
                   EvStatusRequest order; EvSleep 6750%float;
                   EvStatusRequest order; EvSleep 10000%float;
                   EvStatusRequest order; EvSleep 10000%float;
                   EvStatusRequest order] |}).
Proof.
  intros Hall. unfold pollFaceSwapStatus.
  assert (Hk : forall k, In k [1; 2; 3; 4; 5]%nat ->
                         http_failed (attempt_env env k)).
  { intros k Hin. apply Hall. unfold MAX_RETRIES. simpl in Hin. lia. }
  change MAX_RETRIES with 5%nat.
  do 4 (erewrite poll_loop_continues
         by (rewrite iteration_http_failed by (apply Hk; simpl; tauto);
             reflexivity)).
  erewrite poll_loop_throws
    by (rewrite iteration_http_failed by (apply Hk; simpl; tauto);
        reflexivity).
  cbn [stats log]. repeat rewrite <- app_assoc.
  cbn [app]. repeat f_equal; vm_compute; reflexivity.
Qed.

Lemma poll_http_failures_uncounted_witness :
  pollFaceSwapStatus
    {| startTime := 0; attempt_env := fun _ => http_failure 503 |}
    "order-1" fresh_world
  = (Thrown (Error "Status polling failed after 5 attempts"),
     {| stats := resetStats;
        log := [EvStatusRequest "order-1"; EvSleep 4500%float;
                EvStatusRequest "order-1"; EvSleep 6750%float;
                EvStatusRequest "order-1"; EvSleep 10000%float;
                EvStatusRequest "order-1"; EvSleep 10000%float;
                EvStatusRequest "order-1"] |}).
Proof.
  apply (poll_http_failures_uncounted
           {| startTime := 0; attempt_env := fun _ => http_failure 503 |}
           "order-1" fresh_world).
  intros k _. do 2 eexists. repeat split; reflexivity.
Defined.

(** When all five status requests are rejected (network error, time-out)
    with errors that do not carry the terminal phrase, the call sleeps
    along the 1.2 curve after each of the first four (3600, 4320,
    5183.999999999999 and 6220.799999999999 ms, the doubles the code
    computes) and throws the fifth rejection itself, unchanged; the
    counters are untouched. *)
Theorem poll_rejections_rethrown (env : PollEnv) (order : string)
  (e : nat -> JsError) (w : World) :
  (forall k, (1 <= k <= MAX_RETRIES)%nat ->
     rejected_with (attempt_env env k) (e k)) ->
  (forall k, (1 <= k < MAX_RETRIES)%nat ->
     Str.includes (message (e k)) terminal_phrase = false) ->
  pollFaceSwapStatus env order w
  = (Thrown (e 5%nat),
     {| stats := stats w;
        log := log w
               ++ [EvStatusRequest order; EvSleep 3600%float;
                   EvStatusRequest order; EvSleep 4320%float;
                   EvStatusRequest order; EvSleep 5183.999999999999%float;
                   EvStatusRequest order; EvSleep 6220.799999999999%float;
                   EvStatusRequest order] |}).
Proof.
  intros Hall Hmsg. unfold pollFaceSwapStatus.
  assert (Hk : forall k, In k [1; 2; 3; 4; 5]%nat ->
                         rejected_with (attempt_env env k) (e k)).
  { intros k Hin. apply Hall. unfold MAX_RETRIES. simpl in Hin. lia. }
  assert (Hm : forall k, In k [1; 2; 3; 4]%nat ->
                         Str.includes (message (e k)) terminal_phrase = false).
  { intros k Hin. apply Hmsg. unfold MAX_RETRIES. simpl in Hin. lia. }
  change MAX_RETRIES with 5%nat.
  do 4 (erewrite poll_loop_continues
         by (match goal with
             | |- poll_iteration _ _ ?k ?w0 = _ =>
                 rewrite (iteration_rejected order env k (e k) w0
                            (Hk k ltac:(simpl; tauto))),
                   (Hm k ltac:(simpl; tauto))
             end; reflexivity)).
  erewrite poll_loop_throws
    by (match goal with
        | |- poll_iteration _ _ ?k ?w0 = _ =>
            rewrite (iteration_rejected order env k (e k) w0
                       (Hk k ltac:(simpl; tauto)))
        end; reflexivity).
  cbn [stats log]. repeat rewrite <- app_assoc.
  cbn [app]. repeat f_equal; vm_compute; reflexivity.
Qed.

Lemma poll_rejections_rethrown_witness :
  pollFaceSwapStatus
    {| startTime := 0; attempt_env := fun _ => network_failure |}
    "order-1" fresh_world
  = (Thrown {| name := "FetchError";
               message := "request to the status endpoint failed" |},
     {| stats := resetStats;
        log := [EvStatusRequest "order-1"; EvSleep 3600%float;
                EvStatusRequest "order-1"; EvSleep 4320%float;
                EvStatusRequest "order-1"; EvSleep 5183.999999999999%float;
                EvStatusRequest "order-1"; EvSleep 6220.799999999999%float;
                EvStatusRequest "order-1"] |}).
Proof.
  apply (poll_rejections_rethrown
           {| startTime := 0; attempt_env := fun _ => network_failure |}
           "order-1"
           (fun _ => {| name := "FetchError";
                        message := "request to the status endpoint failed" |})
           fresh_world).
  - intros k _. reflexivity.
  - intros k _. reflexivity.
Defined.

(** ** Polling: what counts as terminal, and what is counted *)

(** The catch block recognises the terminal failure by a substring of the
    message.  So any error raised during an attempt whose message carries
    "Face swap failed during processing" (a rejection, or a status
    answer without [statusCode] 2000 whose [message] carries it) ends the
    call at once, at any attempt, without a sleep; and unless it is the
    processing failure itself, the counters are left as they were. *)
Theorem poll_terminal_by_message (env : PollEnv) (order : string) (k : nat)
  (e : JsError) (w w1 : World) :
  poll_try order env k w = (Thrown e, w1) ->
  Str.includes (message e) terminal_phrase = true ->
  (forall remaining,
      poll_loop order env (S remaining) k w = (Thrown e, w1))
  /\ log w1 = (log w ++ [EvStatusRequest order])%list
  /\ (e <> Error processing_failed_message -> stats w1 = stats w).
Proof.
  unfold terminal_phrase. intros Htry Hmsg.
  pose proof (poll_try_cases order env k w) as Hcases.
  rewrite Htry in Hcases. destruct Hcases as [Hlog Hstats].
  split; [|split].
  - intros remaining. apply poll_loop_throws.
    unfold poll_iteration, try_catch. rewrite Htry.
    unfold poll_catch. rewrite Hmsg, orb_true_r. reflexivity.
  - exact Hlog.
  - intros Hne. destruct Hstats as [Hs | [He _]]; [exact Hs | contradiction].
Qed.

Lemma poll_terminal_by_message_witness :
  pollFaceSwapStatus
    {| startTime := 0;
       attempt_env :=
         fun _ =>
           {| status_fetch :=
                inl {| name := "FetchError";
                       message := "proxy said: Face swap failed during processing" |};
              now := 0 |} |}
    "order-1" fresh_world
  = (Thrown {| name := "FetchError";
               message := "proxy said: Face swap failed during processing" |},
     {| stats := resetStats; log := [EvStatusRequest "order-1"] |}).
Proof.
  destruct (poll_terminal_by_message
              {| startTime := 0;
                 attempt_env :=
                   fun _ =>
                     {| status_fetch :=
                          inl {| name := "FetchError";
                                 message := "proxy said: Face swap failed during processing" |};
                        now := 0 |} |}
              "order-1" 1
              {| name := "FetchError";
                 message := "proxy said: Face swap failed during processing" |}
              fresh_world
              {| stats := resetStats; log := [EvStatusRequest "order-1"] |})
    as (Hloop & _ & _).
  - reflexivity.
  - reflexivity.
  - exact (Hloop 4%nat).
Defined.

(** When every one of the five answers is well formed and carries a status
    that is none of [active], [failed], [init], or is [active] without an
    output, the call sleeps 3000 ms after each of the five requests, the
    last included, counts one failure and throws the exhaustion error. *)
Theorem poll_unrecognized_exhausts (env : PollEnv) (order : string)
  (w : World) :
  (forall k, (1 <= k <= MAX_RETRIES)%nat ->
     exists b, well_formed (attempt_env env k) b
               /\ (unrecognized (status_of b)
                   \/ (status_of b = "active" /\ output b = ""))) ->
  pollFaceSwapStatus env order w
  = (Thrown (Error "Face swap did not complete within 5 attempts (15 seconds)"),
     {| stats :=
          {| totalRequests := totalRequests (stats w);
             successfulSwaps := successfulSwaps (stats w);
             failedSwaps := failedSwaps (stats w) + 1;
             averageProcessingTime := averageProcessingTime (stats w) |};
        log := log w
               ++ [EvStatusRequest order; EvSleep 3000%float;
                   EvStatusRequest order; EvSleep 3000%float;
                   EvStatusRequest order; EvSleep 3000%float;
                   EvStatusRequest order; EvSleep 3000%float;
                   EvStatusRequest order; EvSleep 3000%float] |}).
Proof.
  intros Hall. unfold pollFaceSwapStatus.
  assert (Hk : forall k, In k [1; 2; 3; 4; 5]%nat -> forall w0,
             poll_iteration order env k w0
             = (Normal None,
                {| stats := stats w0;
                   log := (log w0 ++ [EvStatusRequest order])
                          ++ [EvSleep 3000%float] |})).
  { intros k Hin w0. destruct (Hall k) as (b & Hwf & Hs).
    - unfold MAX_RETRIES. simpl in Hin. lia.
    - now apply iteration_other with (b := b). }
  change MAX_RETRIES with 5%nat.
  do 5 (erewrite poll_loop_continues by (apply Hk; simpl; tauto)).
  cbn -[exhausted_message]. run_monad. cbn -[exhausted_message].
  rewrite exhausted_message_value.
  repeat rewrite <- app_assoc. reflexivity.
Qed.

Lemma poll_unrecognized_exhausts_witness :
  fst (pollFaceSwapStatus
         {| startTime := 0;
            attempt_env := fun _ => answer "active" "" 100 |}
         "order-1" fresh_world)
  = Thrown (Error "Face swap did not complete within 5 attempts (15 seconds)").
Proof.
  rewrite (poll_unrecognized_exhausts
             {| startTime := 0; attempt_env := fun _ => answer "active" "" 100 |}
             "order-1" fresh_world).
  - reflexivity.
  - intros k _. exists {| status_of := "active"; output := "" |}.
    split; [apply answer_well_formed | right; split; reflexivity].
Defined.

(** ** Polling: how much a call can do *)

Lemma http_backoff_bounds (k : nat) :
  (1 <= k <= MAX_RETRIES)%nat ->
  (3000 <=? http_backoff k)%float = true
  /\ (http_backoff k <=? 10000)%float = true.
Proof.
  unfold MAX_RETRIES. intros Hk.
  assert (Hin : (k = 1 \/ k = 2 \/ k = 3 \/ k = 4 \/ k = 5)%nat) by lia.
  destruct Hin as [-> | [-> | [-> | [-> | ->]]]];
    split; vm_compute; reflexivity.
Qed.

Lemma exception_backoff_bounds (k : nat) :
  (1 <= k <= MAX_RETRIES)%nat ->
  (3000 <=? exception_backoff k)%float = true
  /\ (exception_backoff k <=? 10000)%float = true.
Proof.
  unfold MAX_RETRIES. intros Hk.
  assert (Hin : (k = 1 \/ k = 2 \/ k = 3 \/ k = 4 \/ k = 5)%nat) by lia.
  destruct Hin as [-> | [-> | [-> | [-> | ->]]]];
    split; vm_compute; reflexivity.
Qed.

Lemma poll_interval_bounds :
  (3000 <=? of_Z POLL_INTERVAL)%float = true
  /\ (of_Z POLL_INTERVAL <=? 10000)%float = true.
Proof. split; vm_compute; reflexivity. Qed.

(** One iteration makes its status request and then sleeps at most once. *)
Lemma poll_iteration_events (order : string) (env : PollEnv) (k : nat)
  (w : World) :
  (1 <= k <= MAX_RETRIES)%nat ->
  exists evs,
    log (snd (poll_iteration order env k w)) = (log w ++ evs)%list
    /\ (evs = [EvStatusRequest order]
        \/ exists ms, evs = [EvStatusRequest order; EvSleep ms]
                      /\ (3000 <=? ms)%float = true
                      /\ (ms <=? 10000)%float = true).
Proof.
  intros Hk. run_monad. split_cases; cbn [snd log];
    first
      [ exists [EvStatusRequest order]; split; [reflexivity | now left]
      | eexists; split;
        [ rewrite <- app_assoc; reflexivity
        | right; eexists; split;
          [ reflexivity
          | first [ apply (http_backoff_bounds k Hk)
                  | apply (exception_backoff_bounds k Hk)
                  | apply poll_interval_bounds ] ] ] ].
Qed.

Lemma poll_loop_events (order : string) (env : PollEnv) (remaining : nat) :
  forall (k : nat) (w : World),
  (1 <= k)%nat ->
  (k + remaining = S MAX_RETRIES)%nat ->
  exists evs,
    log (snd (poll_loop order env remaining k w)) = (log w ++ evs)%list
    /\ Forall (poll_event order) evs
    /\ (List.length (filter (is_status_request order) evs) <= remaining)%nat
    /\ (1 <= remaining ->
        1 <= List.length (filter (is_status_request order) evs))%nat
    /\ (List.length (filter is_sleep evs)
        <= List.length (filter (is_status_request order) evs))%nat.
Proof.
  induction remaining as [|remaining IH]; intros k w Hk Hsum.
  - exists []. cbn [poll_loop]. run_monad. cbn.
    rewrite app_nil_r. repeat split; auto; lia.
  - destruct (poll_iteration_events order env k w ltac:(lia))
      as (evs1 & Hlog1 & Hshape).
    assert (Hfacts :
              Forall (poll_event order) evs1
              /\ List.length (filter (is_status_request order) evs1) = 1%nat
              /\ (List.length (filter is_sleep evs1) <= 1)%nat).
    { destruct Hshape as [-> | (ms & -> & Hms)];
        cbn [filter is_status_request is_sleep];
        rewrite String.eqb_refl; cbn [List.length];
        (split;
         [ repeat first [ apply Forall_nil
                        | apply Forall_cons; [first [reflexivity | exact Hms]|] ]
         | split; [reflexivity | lia] ]). }
    destruct Hfacts as (Hall1 & Hreq1 & Hsleep1).
    cbn [poll_loop]. unfold bind.
    destruct (poll_iteration order env k w) as [[[out|]|e] w1];
      cbn [snd] in Hlog1.
    + exists evs1. unfold ret. cbn [snd]. repeat split; auto; lia.
    + destruct (IH (S k) w1 ltac:(lia) ltac:(lia))
        as (evs2 & Hlog2 & Hall2 & Hle & _ & Hsl).
      exists (evs1 ++ evs2)%list. rewrite Hlog2, Hlog1, app_assoc.
      rewrite !filter_app, !length_app.
      repeat split; try lia.
      apply Forall_app. auto.
    + exists evs1. cbn [snd]. repeat split; auto; lia.
Qed.

(** Whatever the outside answers, a call of [pollFaceSwapStatus] makes at
    least one and at most five status requests, all for its order, sleeps
    at most once per request, between 3 and 10 seconds each time, and does
    nothing else to the outside. *)
Theorem poll_effort_bounded (env : PollEnv) (order : string) (w : World) :
  exists evs,
    log (snd (pollFaceSwapStatus env order w)) = (log w ++ evs)%list
    /\ Forall (poll_event order) evs
    /\ (1 <= List.length (filter (is_status_request order) evs)
        <= MAX_RETRIES)%nat
    /\ (List.length (filter is_sleep evs)
        <= List.length (filter (is_status_request order) evs))%nat.
Proof.
  destruct (poll_loop_events order env MAX_RETRIES 1 w ltac:(lia) eq_refl)
    as (evs & Hlog & Hall & Hle & Hge & Hsl).
  exists evs. unfold pollFaceSwapStatus. repeat split; auto.
  apply Hge. unfold MAX_RETRIES. lia.
Qed.

(** ** The whole job, continued *)

Lemma accepted_functional (sf : FetchResult (Envelope OrderBody))
  (o1 o2 : string) :
  accepted sf o1 -> accepted sf o2 -> o1 = o2.
Proof.
  intros (r1 & d1 & H1 & _ & Hj1 & _ & Hb1 & _)
         (r2 & d2 & H2 & _ & Hj2 & _ & Hb2 & _).
  rewrite H1 in H2. injection H2 as <-.
  rewrite Hj1 in Hj2. injection Hj2 as <-. congruence.
Qed.

(** The two ways [requestFaceSwap] ends. *)
Lemma requestFaceSwap_cases (sf : FetchResult (Envelope OrderBody))
  (src tgt : string) (w : World) :
  (exists oid,
      accepted sf oid
      /\ requestFaceSwap sf src tgt w
         = (Normal oid,
            {| stats := seen_by_submission (stats w);
               log := log w
                      ++ [EvSubmit src tgt (seen_by_submission (stats w))] |}))
  \/ (exists e,
         (forall oid, ~ accepted sf oid)
         /\ requestFaceSwap sf src tgt w
            = (Thrown e,
               {| stats :=
                    {| totalRequests := totalRequests (stats w) + 1;
                       successfulSwaps := successfulSwaps (stats w);
                       failedSwaps := failedSwaps (stats w) + 1;
                       averageProcessingTime :=
                         averageProcessingTime (stats w) |};
                  log := log w
                         ++ [EvSubmit src tgt
                               (seen_by_submission (stats w))] |})).
Proof.
  destruct (requestFaceSwap_try_cases sf src tgt w) as (r & Htry & Hr).
  unfold requestFaceSwap, try_catch. rewrite Htry.
  destruct r as [oid | e].
  - left. exists oid. split; [exact Hr | reflexivity].
  - right. rewrite requestFaceSwap_catch_run. eexists.
    split; [exact (proj1 Hr) | reflexivity].
Qed.

(** The job when everything succeeds and the first status answer is
    [active] with an output: the result is that output; the submission
    carries the URL of the source pipeline as [imageUrl] and that of the
    target pipeline as [styleImageUrl]; it comes after all the requests of
    the image pipelines and is followed by the single status request, for
    the order identifier the submission returned; [totalRequests] and
    [successfulSwaps] grow by one and [failedSwaps] is unchanged. *)
Theorem performFaceSwap_success (env : JobEnv)
  (sourceImage targetImage : string) (sourceIsUrl targetIsUrl : bool)
  (w : World) (s t oid : string) (b : StatusBody) :
  fst (processImage (source_env env) sourceImage sourceIsUrl w) = Normal s ->
  fst (processImage (target_env env) targetImage targetIsUrl w) = Normal t ->
  accepted (submit_fetch env) oid ->
  well_formed (attempt_env (poll_env env) 1) b ->
  status_of b = "active" ->
  output b <> "" ->
  exists w' evs,
    performFaceSwap env sourceImage targetImage sourceIsUrl targetIsUrl w
    = (Normal (output b), w')
    /\ log w'
       = (log w ++ evs
            ++ [EvSubmit s t (seen_by_submission (stats w));
                EvStatusRequest oid])%list
    /\ forallb (fun ev => negb (is_request_event ev)) evs = true
    /\ totalRequests (stats w') = totalRequests (stats w) + 1
    /\ successfulSwaps (stats w') = successfulSwaps (stats w) + 1
    /\ failedSwaps (stats w') = failedSwaps (stats w).
Proof.
  destruct (processImage_quiet (source_env env) sourceImage sourceIsUrl)
    as (rs & evs_s & Hquiet_s & Hs).
  destruct (processImage_quiet (target_env env) targetImage targetIsUrl)
    as (rt & evs_t & Hquiet_t & Ht).
  rewrite Hs, Ht. cbn [fst]. intros -> -> Hacc Hwf Hst Hout.
  unfold performFaceSwap. rewrite try_catch_rethrow.
  unfold bind at 1. unfold promise_all2. rewrite Hs, Ht.
  unfold bind at 1.
  destruct (requestFaceSwap_cases (submit_fetch env) s t
              {| stats := stats {| stats := stats w; log := log w ++ evs_s |};
                 log := log {| stats := stats w; log := log w ++ evs_s |}
                        ++ evs_t |})
    as [(oid' & Hacc' & Hrun) | (e & Hno & _)];
    [| exfalso; exact (Hno oid Hacc)].
  rewrite Hrun.
  assert (oid' = oid) by (eapply accepted_functional; eassumption).
  subst oid'.
  unfold bind at 1. unfold pollFaceSwapStatus.
  change MAX_RETRIES with 5%nat.
  erewrite poll_loop_returns by (apply iteration_active; eassumption).
  unfold ret. cbn [stats log].
  do 2 eexists. split; [reflexivity|]. cbn [stats log].
  split; [| split; [| repeat split]].
  - instantiate (1 := (evs_s ++ evs_t)%list).
    rewrite <- !app_assoc. reflexivity.
  - rewrite forallb_app, Hquiet_s, Hquiet_t. reflexivity.
Qed.

Lemma performFaceSwap_success_witness :
  exists w',
    performFaceSwap
      {| source_env := remote_image jpeg_2048 "image/jpeg";
         target_env := remote_image png_2048 "image/png";
         first_rejection := SourceSide;
         submit_fetch := envelope_with_order "order-1";
         poll_env :=
           {| startTime := 0;
              attempt_env :=
                fun _ => answer "active" "https://cdn/out.jpg" 10 |} |}
      "https://cdn/s" "https://cdn/t" true true fresh_world
    = (Normal "https://cdn/out.jpg", w')
    /\ totalRequests (stats w') = 1
    /\ successfulSwaps (stats w') = 1
    /\ failedSwaps (stats w') = 0.
Proof.
  destruct (performFaceSwap_success
              {| source_env := remote_image jpeg_2048 "image/jpeg";
                 target_env := remote_image png_2048 "image/png";
                 first_rejection := SourceSide;
                 submit_fetch := envelope_with_order "order-1";
                 poll_env :=
                   {| startTime := 0;
                      attempt_env :=
                        fun _ => answer "active" "https://cdn/out.jpg" 10 |} |}
              "https://cdn/s" "https://cdn/t" true true fresh_world
              "https://img/s" "https://img/s" "order-1"
              {| status_of := "active"; output := "https://cdn/out.jpg" |})
    as (w' & evs & Hrun & _ & _ & Htotal & Hsucc & Hfailed).
  - vm_compute. reflexivity.
  - vm_compute. reflexivity.
  - do 2 eexists. repeat split; try reflexivity. discriminate.
  - apply answer_well_formed.
  - reflexivity.
  - discriminate.
  - exists w'. repeat split; assumption.
Defined.

(** A job whose images are both uploaded but whose submission is not
    accepted ends with the submission: no status request follows,
    [totalRequests] and [failedSwaps] grow by one. *)
Theorem performFaceSwap_refused_no_poll (env : JobEnv)
  (sourceImage targetImage : string) (sourceIsUrl targetIsUrl : bool)
  (w : World) (s t : string) :
  fst (processImage (source_env env) sourceImage sourceIsUrl w) = Normal s ->
  fst (processImage (target_env env) targetImage targetIsUrl w) = Normal t ->
  (forall oid, ~ accepted (submit_fetch env) oid) ->
  exists e w' evs,
    performFaceSwap env sourceImage targetImage sourceIsUrl targetIsUrl w
    = (Thrown e, w')
    /\ log w'
       = (log w ++ evs ++ [EvSubmit s t (seen_by_submission (stats w))])%list
    /\ forallb (fun ev => negb (is_request_event ev)) evs = true
    /\ totalRequests (stats w') = totalRequests (stats w) + 1
    /\ successfulSwaps (stats w') = successfulSwaps (stats w)
    /\ failedSwaps (stats w') = failedSwaps (stats w) + 1.
Proof.
  destruct (processImage_quiet (source_env env) sourceImage sourceIsUrl)
    as (rs & evs_s & Hquiet_s & Hs).
  destruct (processImage_quiet (target_env env) targetImage targetIsUrl)
    as (rt & evs_t & Hquiet_t & Ht).
  rewrite Hs, Ht. cbn [fst]. intros -> -> Hno.
  unfold performFaceSwap. rewrite try_catch_rethrow.
  unfold bind at 1. unfold promise_all2. rewrite Hs, Ht.
  unfold bind at 1.
  destruct (requestFaceSwap_cases (submit_fetch env) s t
              {| stats := stats {| stats := stats w; log := log w ++ evs_s |};
                 log := log {| stats := stats w; log := log w ++ evs_s |}
                        ++ evs_t |})
    as [(oid & Hacc & _) | (e & _ & Hrun)];
    [exfalso; exact (Hno oid Hacc) |].
  rewrite Hrun. cbn [stats log].
  do 3 eexists. split; [reflexivity|]. cbn [stats log].
  split; [| split; [| repeat split]].
  - instantiate (1 := (evs_s ++ evs_t)%list).
    rewrite <- !app_assoc. reflexivity.
  - rewrite forallb_app, Hquiet_s, Hquiet_t. reflexivity.
Qed.

Lemma performFaceSwap_refused_no_poll_witness :
  exists e w',
    performFaceSwap
      {| source_env := remote_image jpeg_2048 "image/jpeg";
         target_env := remote_image png_2048 "image/png";
         first_rejection := SourceSide;
         submit_fetch := envelope_without_order;
         poll_env :=
           {| startTime := 0;
              attempt_env :=
                fun _ => answer "active" "https://cdn/out.jpg" 10 |} |}
      "https://cdn/s" "https://cdn/t" true true fresh_world
    = (Thrown e, w')
    /\ existsb (is_status_request "order-1") (log w') = false
    /\ failedSwaps (stats w') = 1.
Proof.
  destruct (performFaceSwap_refused_no_poll
              {| source_env := remote_image jpeg_2048 "image/jpeg";
                 target_env := remote_image png_2048 "image/png";
                 first_rejection := SourceSide;
                 submit_fetch := envelope_without_order;
                 poll_env :=
                   {| startTime := 0;
                      attempt_env :=
                        fun _ => answer "active" "https://cdn/out.jpg" 10 |} |}
              "https://cdn/s" "https://cdn/t" true true fresh_world
              "https://img/s" "https://img/s")
    as (e & w' & evs & Hrun & _ & _ & _ & _ & Hfailed).
  - vm_compute. reflexivity.
  - vm_compute. reflexivity.
  - intros oid (r & d & H & _ & Hj & _ & Hb & Hne).
    injection H as <-. injection Hj as <-. apply Hne. symmetry. exact Hb.
  - exists e, w'. split; [exact Hrun|]. split; [|exact Hfailed].
    vm_compute in Hrun. injection Hrun as _ <-. reflexivity.
Defined.

Lemma performFaceSwap_cases (env : JobEnv)
  (sourceImage targetImage : string) (sourceIsUrl targetIsUrl : bool)
  (w : World) :
  match performFaceSwap env sourceImage targetImage sourceIsUrl targetIsUrl w
  with
  | (Normal out, w') =>
      totalRequests (stats w') = totalRequests (stats w) + 1
      /\ successfulSwaps (stats w') = successfulSwaps (stats w) + 1
      /\ failedSwaps (stats w') = failedSwaps (stats w)
  | (Thrown e, w') =>
      stats w' = stats w
      \/ (totalRequests (stats w') = totalRequests (stats w) + 1
          /\ successfulSwaps (stats w') = successfulSwaps (stats w)
          /\ (failedSwaps (stats w') = failedSwaps (stats w)
              \/ failedSwaps (stats w') = failedSwaps (stats w) + 1))
  end.
Proof.
  destruct (processImage_quiet (source_env env) sourceImage sourceIsUrl)
    as (rs & evs_s & Hquiet_s & Hs).
  destruct (processImage_quiet (target_env env) targetImage targetIsUrl)
    as (rt & evs_t & Hquiet_t & Ht).
  unfold performFaceSwap. rewrite try_catch_rethrow.
  unfold bind at 1. unfold promise_all2. rewrite Hs, Ht.
  destruct rs as [s | es], rt as [t | et];
    try (left; reflexivity);
    try (destruct (first_rejection env); left; reflexivity).
  unfold bind at 1.
  destruct (requestFaceSwap_cases (submit_fetch env) s t
              {| stats := stats {| stats := stats w; log := log w ++ evs_s |};
                 log := log {| stats := stats w; log := log w ++ evs_s |}
                        ++ evs_t |})
    as [(oid & _ & Hrun) | (e & _ & Hrun)]; rewrite Hrun; cbn [stats log].
  - unfold bind at 1. unfold pollFaceSwapStatus.
    match goal with
    | |- context [poll_loop ?o ?pe ?n ?k ?w2] =>
        pose proof (poll_loop_cases o pe n k w2) as Hpoll;
        destruct (poll_loop o pe n k w2) as [[out | e] w']
    end; cbn [stats] in Hpoll.
    + unfold ret. destruct Hpoll as (Ht' & Hs' & Hf').
      cbn [seen_by_submission totalRequests successfulSwaps failedSwaps]
        in Ht', Hs', Hf'.
      auto.
    + right. destruct Hpoll as [Hsame | (Ht' & Hs' & Hf' & _)].
      * rewrite Hsame.
        cbn [seen_by_submission totalRequests successfulSwaps failedSwaps].
        auto.
      * cbn [seen_by_submission totalRequests successfulSwaps failedSwaps]
          in Ht', Hs', Hf'.
        auto.
  - right. cbn [totalRequests successfulSwaps failedSwaps]. auto.
Qed.

(** Whatever the outside answers, one job adds at most one to
    [totalRequests], never decreases a counter, and counts at most one
    outcome, and only for a job it counted as a request.  Hence
    [successfulSwaps + failedSwaps <= totalRequests], true of the reset
    counters, stays true from job to job.  A job returns exactly when it
    counted a success. *)
Theorem performFaceSwap_counts (env : JobEnv)
  (sourceImage targetImage : string) (sourceIsUrl targetIsUrl : bool)
  (w : World) :
  let run :=
    performFaceSwap env sourceImage targetImage sourceIsUrl targetIsUrl w in
  let s := stats w in
  let s' := stats (snd run) in
  totalRequests s <= totalRequests s' <= totalRequests s + 1
  /\ successfulSwaps s <= successfulSwaps s'
  /\ failedSwaps s <= failedSwaps s'
  /\ (successfulSwaps s' - successfulSwaps s)
     + (failedSwaps s' - failedSwaps s)
     <= totalRequests s' - totalRequests s
  /\ ((exists out, fst run = Normal out)
      <-> successfulSwaps s' = successfulSwaps s + 1).
Proof.
  cbv zeta.
  pose proof (performFaceSwap_cases env sourceImage targetImage sourceIsUrl
                targetIsUrl w) as H.
  destruct (performFaceSwap env sourceImage targetImage sourceIsUrl
              targetIsUrl w) as [[out | e] w'];
    cbn [fst snd].
  - destruct H as (Ht & Hs & Hf). repeat split; try lia.
    intros _. now exists out.
  - assert (Hno : ~ exists out : string, @Thrown string e = Normal out)
      by (intros [out Hout]; discriminate Hout).
    destruct H as [-> | (Ht & Hs & [Hf | Hf])]; repeat split; try lia;
      try (intros Hex; exfalso; now apply Hno).
Qed.

(** ** Configuration and connectivity *)

(** The client counts as configured exactly when the API key is set and
    has at least 16 characters and the base URL is not empty; the separate
    test for an empty key adds nothing. *)
Theorem isConfigured_iff (LIGHTX_API_KEY : option string) (baseUrl : string) :
  isConfigured LIGHTX_API_KEY baseUrl = true
  <-> (exists key, LIGHTX_API_KEY = Some key /\ (16 <= String.length key)%nat)
      /\ baseUrl <> "".
Proof.
  unfold isConfigured. cbv zeta. split.
  - destruct LIGHTX_API_KEY as [key|]; [|discriminate].
    destruct (Str.truthy key); [|discriminate]. cbn [negb].
    destruct (Str.truthy baseUrl) eqn:Hb; [|discriminate]. cbn [negb].
    destruct (Nat.ltb_spec (String.length key) 16); [discriminate|].
    intros _. split; [eauto | now apply truthy_iff].
  - intros [(key & -> & Hlen) Hb].
    assert (Hk : Str.truthy key = true)
      by (destruct key; [cbn in Hlen; lia | reflexivity]).
    apply truthy_iff in Hb. rewrite Hk, Hb. cbn [negb].
    destruct (Nat.ltb_spec (String.length key) 16); [lia | reflexivity].
Qed.

(** The probe answered with status 200 and the body [null]: the body
    parses, the parsed value is not read, the answer is [true]. *)
Lemma testConnection_null_body :
  testConnection probe_null fresh_world
  = (Normal true,
     {| stats := resetStats;
        log := [EvUploadUrlRequest 1000 "image/jpeg"] |}).
Proof. reflexivity. Qed.

(** [testConnection] never throws and leaves the counters alone; it makes
    one upload-URL request for 1000 bytes of [image/jpeg].  Its answer is
    [true] exactly when the request got a response with status 200 whose
    body parses as JSON, to any value, [null] included: a rejected
    request, any other status, and a 200 whose body does not parse all
    give [false]. *)
Theorem testConnection_total {J : Type} (probe : FetchResult J)
  (w : World) :
  exists connected,
    testConnection probe w
    = (Normal connected,
       {| stats := stats w;
          log := log w ++ [EvUploadUrlRequest 1000 "image/jpeg"] |})
    /\ (connected = true
        <-> exists r d, probe = inr r /\ status r = 200 /\ json r = inr d).
Proof.
  unfold testConnection, try_catch, fetch, bind, emit, await.
  destruct probe as [e | r]; cbn [throw ret].
  - eexists. split; [reflexivity|].
    split; [discriminate | intros (r & d & H & _); discriminate H].
  - destruct (Z.eqb_spec (status r) 200) as [H200 | H200].
    + destruct (json r) as [e | d] eqn:Hj; cbn [throw ret].
      * eexists. split; [reflexivity|].
        split; [discriminate|].
        intros (r' & d & H & _ & Hj'). injection H as <-. congruence.
      * eexists. split; [reflexivity|].
        split; [intros _; eauto | reflexivity].
    + assert (Hno : false = true
                    <-> exists r0 (d : J), @inr JsError _ r = inr r0
                                     /\ status r0 = 200 /\ json r0 = inr d).
      { split; [discriminate|].
        intros (r' & d & H & Hs & _). injection H as <-. contradiction. }
      destruct (status r =? 403).
      * destruct (text r); cbn [throw ret]; eexists; split;
          solve [reflexivity | exact Hno].
      * eexists. split; [reflexivity | exact Hno].
Qed.

(** ** The request limiter *)

Lemma filter_after_twice (c0 c : Z) (l : list Z) :
  c0 <= c ->
  filter (fun time => c <? time) (filter (fun time => c0 <? time) l)
  = filter (fun time => c <? time) l.
Proof.
  intros Hc. induction l as [|t l IH]; [reflexivity|].
  cbn [filter]. destruct (Z.ltb_spec c0 t) as [H0 | H0]; cbn [filter].
  - now rewrite IH.
  - destruct (Z.ltb_spec c t); [lia | exact IH].
Qed.

Lemma admitted_app (ip : string) (served1 served2 : list (string * Z * Verdict)) :
  admitted ip (served1 ++ served2)
  = (admitted ip served1 ++ admitted ip served2)%list.
Proof.
  induction served1 as [|[[ip' t] v] served1 IH]; [reflexivity|].
  cbn [app admitted]. destruct v; [|exact IH].
  destruct (ip' =? ip)%string; [|exact IH].
  cbn [app]. now rewrite IH.
Qed.

Lemma map_get_set (m : RateLimitMap) (ip k : string) (times : list Z) :
  map_get (map_set m ip times) k
  = if (k =? ip)%string then times else map_get m k.
Proof. unfold map_get, map_set. destruct (k =? ip)%string; reflexivity. Qed.

(** Creating the empty entry of a new address changes no reading. *)
Lemma map_get_touch (m : RateLimitMap) (ip k : string) :
  map_get (if negb (map_has m ip) then map_set m ip [] else m) k
  = map_get m k.
Proof.
  unfold map_has. destruct (m ip) as [times|] eqn:Hip; cbn [negb];
    [reflexivity|].
  rewrite map_get_set. destruct (String.eqb_spec k ip) as [-> | _];
    [|reflexivity].
  unfold map_get. now rewrite Hip.
Qed.

(** One request: the limiter keeps remembering, and it admits only when
    fewer than [maxRequests] admitted times lie in the window. *)
Lemma rateLimit_step (maxRequests windowMs floor : Z) (ip : string) (now : Z)
  (m : RateLimitMap) (served : list (string * Z * Verdict)) :
  remembers windowMs floor m served ->
  floor <= now ->
  remembers windowMs now
    (snd (rateLimit maxRequests windowMs ip now m))
    (served ++ [(ip, now, fst (rateLimit maxRequests windowMs ip now m))])
  /\ (fst (rateLimit maxRequests windowMs ip now m) = Next ->
      Z.of_nat (List.length (filter (fun time => now - windowMs <? time)
                               (admitted ip served)))
      < maxRequests).
Proof.
  intros Hrem Hfloor. unfold rateLimit. cbv zeta.
  rewrite map_get_touch.
  rewrite (Hrem ip (now - windowMs)) by lia.
  destruct (Z.leb_spec maxRequests
              (Z.of_nat (List.length
                           (filter (fun time => now - windowMs <? time)
                              (admitted ip served))))) as [Hfull | Hroom];
    cbn [fst snd].
  - split; [|discriminate].
    intros k c Hc. rewrite map_get_touch, admitted_app.
    cbn [admitted]. rewrite app_nil_r. apply Hrem. lia.
  - split; [|intros _; exact Hroom].
    intros k c Hc. rewrite map_get_set, map_get_touch, admitted_app.
    cbn [admitted]. rewrite (String.eqb_sym ip k).
    destruct (k =? ip)%string eqn:Hk.
    + apply String.eqb_eq in Hk. subst k.
      rewrite !filter_app, filter_after_twice by lia. reflexivity.
    + rewrite app_nil_r. apply Hrem. lia.
Qed.

Lemma serve_window_bound (maxRequests windowMs : Z)
  (requests : list (string * Z)) :
  forall (m : RateLimitMap) (served : list (string * Z * Verdict))
         (floor : Z),
    remembers windowMs floor m served ->
    clock_monotone floor requests ->
    forall pre ip now post,
      serve maxRequests windowMs requests m = (pre ++ (ip, now, Next) :: post)%list ->
      Z.of_nat (List.length (filter (fun time => now - windowMs <? time)
                               (admitted ip (served ++ pre))))
      < maxRequests.
Proof.
  induction requests as [|[ip0 now0] rest IH];
    intros m served floor Hrem Hclock pre ip now post Hserve.
  - destruct pre; discriminate Hserve.
  - cbn [serve clock_monotone] in Hserve, Hclock.
    destruct Hclock as [Hfloor Hclock].
    destruct (rateLimit_step maxRequests windowMs floor ip0 now0 m served
                Hrem Hfloor) as [Hrem' Hadmit].
    destruct (rateLimit maxRequests windowMs ip0 now0 m) as [v m'].
    cbn [fst snd] in Hrem', Hadmit.
    destruct pre as [|x pre]; cbn [app] in Hserve.
    + injection Hserve as -> -> -> _. rewrite app_nil_r.
      now apply Hadmit.
    + injection Hserve as <- Hrest.
      replace (served ++ (ip0, now0, v) :: pre)%list
        with ((served ++ [(ip0, now0, v)]) ++ pre)%list
        by (rewrite <- app_assoc; reflexivity).
      eapply IH; eassumption.
Qed.

(** Starting from the empty map, with a clock that never goes back: when a
    request is let through, fewer than [maxRequests] earlier requests of
    the same address were let through during the [windowMs] milliseconds
    before it.  So no address gets more than [maxRequests] requests through
    in any window, however many it makes and however the addresses
    interleave. *)
Theorem rateLimit_window_bound (maxRequests windowMs floor : Z)
  (requests : list (string * Z))
  (pre : list (string * Z * Verdict)) (ip : string) (now : Z)
  (post : list (string * Z * Verdict)) :
  clock_monotone floor requests ->
  serve maxRequests windowMs requests (fun _ => None)
  = (pre ++ (ip, now, Next) :: post)%list ->
  Z.of_nat (List.length (filter (fun time => now - windowMs <? time)
                           (admitted ip pre)))
  < maxRequests.
Proof.
  intros Hclock Hserve.
  apply (serve_window_bound maxRequests windowMs requests (fun _ => None)
           [] floor) with (post := post); auto.
  intros k c _. reflexivity.
Qed.

Lemma rateLimit_window_bound_witness :
  serve 2 1000 [("10.0.0.1", 0); ("10.0.0.1", 10); ("10.0.0.1", 20);
                ("10.0.0.2", 30); ("10.0.0.1", 1005)] (fun _ => None)
  = [("10.0.0.1", 0, Next); ("10.0.0.1", 10, Next);
     ("10.0.0.1", 20, TooManyRequests); ("10.0.0.2", 30, Next);
     ("10.0.0.1", 1005, Next)]
  /\ Z.of_nat (List.length
                 (filter (fun time => 1005 - 1000 <? time)
                    (admitted "10.0.0.1"
                       [("10.0.0.1", 0, Next); ("10.0.0.1", 10, Next);
                        ("10.0.0.1", 20, TooManyRequests);
                        ("10.0.0.2", 30, Next)])))
     < 2.
Proof.
  split; [reflexivity|].
  apply (rateLimit_window_bound 2 1000 0
           [("10.0.0.1", 0); ("10.0.0.1", 10); ("10.0.0.1", 20);
            ("10.0.0.2", 30); ("10.0.0.1", 1005)]
           [("10.0.0.1", 0, Next); ("10.0.0.1", 10, Next);
            ("10.0.0.1", 20, TooManyRequests); ("10.0.0.2", 30, Next)]
           "10.0.0.1" 1005 []).
  - cbn. lia.
  - reflexivity.
Defined.

Lemma rateLimit_ext (maxRequests windowMs : Z) (ip : string) (now : Z)
  (m1 m2 : RateLimitMap) :
  (forall k, map_get m1 k = map_get m2 k) ->
  fst (rateLimit maxRequests windowMs ip now m1)
  = fst (rateLimit maxRequests windowMs ip now m2)
  /\ forall k,
      map_get (snd (rateLimit maxRequests windowMs ip now m1)) k
      = map_get (snd (rateLimit maxRequests windowMs ip now m2)) k.
Proof.
  intros Hsame. unfold rateLimit. cbv zeta.
  rewrite !map_get_touch, (Hsame ip).
  destruct (maxRequests <=? _); cbn [fst snd].
  - split; [reflexivity|]. intros k. now rewrite !map_get_touch.
  - split; [reflexivity|]. intros k.
    now rewrite !map_get_set, !map_get_touch, Hsame.
Qed.

Lemma serve_ext (maxRequests windowMs : Z) (requests : list (string * Z)) :
  forall m1 m2,
    (forall k, map_get m1 k = map_get m2 k) ->
    serve maxRequests windowMs requests m1
    = serve maxRequests windowMs requests m2.
Proof.
  induction requests as [|[ip now] rest IH]; intros m1 m2 Hsame;
    [reflexivity|].
  cbn [serve].
  destruct (rateLimit_ext maxRequests windowMs ip now m1 m2 Hsame)
    as [Hv Hm].
  destruct (rateLimit maxRequests windowMs ip now m1) as [v1 m1'].
  destruct (rateLimit maxRequests windowMs ip now m2) as [v2 m2'].
  cbn [fst snd] in Hv, Hm. subst v2. f_equal. now apply IH.
Qed.

(** A refused request is not remembered: the requests that follow are
    served exactly as if it had never been made, so repeating a refused
    request does not prolong the refusal. *)
Theorem rateLimit_refusal_forgotten (maxRequests windowMs : Z) (ip : string)
  (now : Z) (m : RateLimitMap) (rest : list (string * Z)) :
  fst (rateLimit maxRequests windowMs ip now m) = TooManyRequests ->
  serve maxRequests windowMs ((ip, now) :: rest) m
  = (ip, now, TooManyRequests) :: serve maxRequests windowMs rest m.
Proof.
  intros Hrefused. cbn [serve].
  destruct (rateLimit maxRequests windowMs ip now m) as [v m'] eqn:Hrun.
  cbn [fst] in Hrefused. subst v. f_equal.
  apply serve_ext. intros k.
  unfold rateLimit in Hrun. cbv zeta in Hrun.
  destruct (maxRequests <=? _) in Hrun; [|discriminate Hrun].
  injection Hrun as <-. apply map_get_touch.
Qed.

Lemma rateLimit_refusal_forgotten_witness :
  serve 1 1000 [("10.0.0.1", 5); ("10.0.0.1", 1001)]
    (map_set (fun _ => None) "10.0.0.1" [0])
  = ("10.0.0.1", 5, TooManyRequests)
      :: serve 1 1000 [("10.0.0.1", 1001)]
           (map_set (fun _ => None) "10.0.0.1" [0]).
Proof.
  apply (rateLimit_refusal_forgotten 1 1000 "10.0.0.1" 5
           (map_set (fun _ => None) "10.0.0.1" [0])
           [("10.0.0.1", 1001)]).
  reflexivity.
Defined.

(** Once every time kept for an address is [windowMs] old or older, its
    next request is let through (if the limit allows any request at all),
    and the kept history of the address shrinks to that one request. *)
Theorem rateLimit_recovers (maxRequests windowMs : Z) (ip : string)
  (now : Z) (m : RateLimitMap) :
  0 < maxRequests ->
  (forall time, In time (map_get m ip) -> time <= now - windowMs) ->
  fst (rateLimit maxRequests windowMs ip now m) = Next
  /\ map_get (snd (rateLimit maxRequests windowMs ip now m)) ip = [now].
Proof.
  intros Hmax Hold. unfold rateLimit. cbv zeta. rewrite map_get_touch.
  assert (Hnone : filter (fun time => now - windowMs <? time) (map_get m ip)
                  = []).
  { induction (map_get m ip) as [|t l IH]; [reflexivity|].
    cbn [filter]. destruct (Z.ltb_spec (now - windowMs) t) as [Hlt | _].
    - specialize (Hold t (or_introl eq_refl)). lia.
    - apply IH. intros time Hin. apply Hold. now right. }
  rewrite Hnone. cbn [List.length Z.of_nat app].
  destruct (Z.leb_spec maxRequests 0); [lia|]. cbn [fst snd].
  split; [reflexivity|].
  rewrite map_get_set, String.eqb_refl. reflexivity.
Qed.

Lemma rateLimit_recovers_witness :
  fst (rateLimit 5 900000 "10.0.0.1" 900000
         (map_set (fun _ => None) "10.0.0.1" [0; 0; 0; 0; 0]))
  = Next
  /\ map_get (snd (rateLimit 5 900000 "10.0.0.1" 900000
                     (map_set (fun _ => None) "10.0.0.1" [0; 0; 0; 0; 0])))
       "10.0.0.1"
     = [900000].
Proof.
  apply (rateLimit_recovers 5 900000 "10.0.0.1" 900000
           (map_set (fun _ => None) "10.0.0.1" [0; 0; 0; 0; 0])).
  - lia.
  - intros time Hin. cbn in Hin. lia.
Defined.
